(** * The AI self-disruption economy: a shallow embedding of the three scripts

    The repository holds three variants of one agent-based simulation:
    - [ai_economy.py]: fixed automation rate, one wage for everybody,
      workers automated by position;
    - [eco.py]: automation rate drawn from a normal law, wages drawn from a
      normal law, the first employed workers are automated;
    - [python/chess.py]: as [eco.py], but the employed workers are shuffled
      before they are automated, and the history keeps per-worker data.

    Modelling choices.
    - Python floats are modelled as exact rationals in canonical form
      ([Qc]), so that equality of numbers is Leibniz equality.  Rounding,
      overflow and NaN are outside the model.
    - Python integers are [Z]; [int(x)] truncates toward zero.
    - An exception is the [None] of an [option]; the only operations of the
      scripts that can raise are the float division and the list
      subscript.
    - The process-wide NumPy generator is an explicit state [G] that every
      draw consumes and returns ([NumpyRandom]).
    - Objects are mutated in place in the scripts; none of them is shared
      between two containers, so records passed by value model them.
    - The plotting and the drawing are left out; the values they are given
      (the normalised series, the grid of wages and the employed
      percentage of a frame) are modelled. *)

From Stdlib Require Import ZArith QArith Qcanon Lqa.
From stdpp Require Import base tactics numbers option list.

Open Scope Qc_scope.

(** ** Python built-ins used by the scripts *)

Module Py.

(** An [int] used where a [float] is expected. *)
Definition float_of_int (z : Z) : Qc := Q2Qc (inject_Z z).

(** [int(x)]: truncation toward zero. *)
Definition int (x : Qc) : Z := (Qnum x ÷ Zpos (Qden x))%Z.

(** [max(a, b)]: the first argument unless the second is greater. *)
Definition max (a b : Qc) : Qc := if decide (a < b) then b else a.

(** [a / b] raises [ZeroDivisionError] when [b] is zero. *)
Definition truediv (a b : Qc) : option Qc :=
  if decide (b = 0) then None else Some (a / b).

(** [sum(xs)] adds from the left, starting at [0]. *)
Definition sum (xs : list Qc) : Qc := foldl Qcplus 0 xs.

(** [sum] over Python integers. *)
Definition isum (xs : list Z) : Z := foldl Z.add 0%Z xs.

(** [xs[:k]]: a negative [k] counts from the end; the bounds are
    clamped to the list. *)
Definition slice_to {A} (xs : list A) (k : Z) : list A :=
  take (Z.to_nat (if decide (k < 0)%Z then (Z.of_nat (length xs) + k)%Z else k)) xs.

(** [xs[i]] for a non-negative [i] raises [IndexError] out of range. *)
Definition getitem {A} (xs : list A) (i : nat) : option A := xs !! i.

End Py.

(** ** Constants and agents common to the three scripts *)

Definition BETA : Qc := Q2Qc 0.8.
Definition GAMMA : Qc := Q2Qc 0.7.
Definition TAU : Qc := Q2Qc 0.3.
Definition EPSILON : Qc := Q2Qc 0.5.
Definition AI_PROFIT_PER_JOB : Z := 50.
Definition NUM_STEPS : nat := 50.

Record Worker := mkWorker {
  employed : bool;
  wage : Qc;
  consumption : Qc
}.

Record AIFirm := mkAIFirm { material_gain : Qc }.

Record NonAIFirm := mkNonAIFirm { revenue : Qc }.

Record Government := mkGovernment { tax_revenue : Qc }.

(** [Worker.__init__] of [ai_economy.py] and [eco.py]. *)
Definition Worker_init (w : Qc) : Worker :=
  let employed := true in
  {| employed := employed; wage := w;
     consumption := if employed then w * BETA else 0 |}.

(** [Worker.update] of [ai_economy.py] and [eco.py]. *)
Definition Worker_update (w : Worker) : Worker :=
  {| employed := employed w; wage := wage w;
     consumption := if employed w then wage w * BETA else 0 |}.

(** The assignment [worker.employed = False]. *)
Definition set_unemployed (w : Worker) : Worker :=
  {| employed := false; wage := wage w; consumption := consumption w |}.

Definition AIFirm_init : AIFirm := {| material_gain := 0 |}.

Definition NonAIFirm_init : NonAIFirm := {| revenue := 0 |}.

(** [NonAIFirm.update]: the revenue is overwritten. *)
Definition NonAIFirm_update (total_consumption : Qc) (f : NonAIFirm) : NonAIFirm :=
  {| revenue := GAMMA * total_consumption |}.

Definition Government_init : Government := {| tax_revenue := 0 |}.

(** The conditional expression
    [total_consumption / initial_consumption if initial_consumption > 0 else 0],
    the same in the three [AIFirm.update]. *)
Definition demand_ratio (total_consumption initial_consumption : Qc) : option Qc :=
  if decide (0 < initial_consumption)
  then Py.truediv total_consumption initial_consumption
  else Some 0.

(** [raw_profit = jobs_to_automate * AI_PROFIT_PER_JOB]. *)
Definition raw_profit (jobs_to_automate : Z) : Z :=
  (jobs_to_automate * AI_PROFIT_PER_JOB)%Z.

(** [raw_profit * max(0, 1 - EPSILON * (1 - ratio))]. *)
Definition adjusted_profit (jobs_to_automate : Z) (ratio : Qc) : Qc :=
  Py.float_of_int (raw_profit jobs_to_automate)
  * Py.max 0 (1 - EPSILON * (1 - ratio)).

(** The comprehension [[i for i, w in enumerate(workers) if w.employed]],
    with the counter of [enumerate] starting at [i]. *)
Fixpoint employed_indices_from (i : nat) (ws : list Worker) : list nat :=
  match ws with
  | [] => []
  | w :: ws' =>
      if employed w then i :: employed_indices_from (S i) ws'
      else employed_indices_from (S i) ws'
  end.

Definition employed_indices (ws : list Worker) : list nat :=
  employed_indices_from 0 ws.

(** [sum(1 for w in workers if w.employed)]. *)
Definition count_employed (ws : list Worker) : Z :=
  Py.isum ((λ _, 1%Z) <$> filter (λ w, employed w) ws).

(** [workers[idx].employed = False]. *)
Definition setitem_unemployed (ws : list Worker) (idx : nat) : option (list Worker) :=
  w ← Py.getitem ws idx;
  Some (<[idx := set_unemployed w]> ws).

(** [for idx in idxs: workers[idx].employed = False]. *)
Fixpoint automate_indices (idxs : list nat) (ws : list Worker) : option (list Worker) :=
  match idxs with
  | [] => Some ws
  | idx :: idxs' =>
      ws' ← setitem_unemployed ws idx;
      automate_indices idxs' ws'
  end.

(** The dictionary [data] of [ai_economy.py] and [eco.py]: five series,
    one value appended to each per step. *)
Record Data := mkData {
  Employment : list Z;
  Consumption : list Qc;
  Tax_Revenue : list Qc;
  AI_Profit : list Qc;
  Non_AI_Revenue : list Qc
}.

(** The attributes of [Economy] in [ai_economy.py] and [eco.py]. *)
Record Economy := mkEconomy {
  num_employed : Z;
  workers : list Worker;
  ai_firm : AIFirm;
  non_ai_firms : list NonAIFirm;
  government : Government;
  total_consumption : Qc;
  initial_consumption : Qc;
  data : Data
}.

(** The five [data[...].append(...)] that end a step. *)
Definition record (d : Data) (n : Z) (c t p r : Qc) : Data :=
  {| Employment := Employment d ++ [n];
     Consumption := Consumption d ++ [c];
     Tax_Revenue := Tax_Revenue d ++ [t];
     AI_Profit := AI_Profit d ++ [p];
     Non_AI_Revenue := Non_AI_Revenue d ++ [r] |}.

(** ** [ai_economy.py] *)

Module AiEconomy.

Definition ALPHA : Qc := Q2Qc 0.05.
Definition INITIAL_JOBS : Z := 1000.
Definition INITIAL_WAGE : Z := 100.

(** [AIFirm.update]: the new firm and the returned [jobs_to_automate]. *)
Definition AIFirm_update (f : AIFirm) (num_employed : Z)
    (total_consumption initial_consumption : Qc) : option (AIFirm * Z) :=
  let jobs_to_automate := Py.int (ALPHA * Py.float_of_int num_employed) in
  ratio ← demand_ratio total_consumption initial_consumption;
  Some ({| material_gain := material_gain f + adjusted_profit jobs_to_automate ratio |},
        jobs_to_automate).

(** [Government.update]: the new government and the returned stimulus. *)
Definition Government_update (gov : Government) (num_employed : Z)
    (non_ai_firms : list NonAIFirm) : Government * Qc :=
  let wages := (num_employed * INITIAL_WAGE)%Z in
  let firm_revenue := Py.sum (revenue <$> non_ai_firms) in
  let tax := TAU * (Py.float_of_int wages + firm_revenue) in
  ({| tax_revenue := tax |}, Q2Qc 0.5 * tax).

(** [[Worker() for _ in range(INITIAL_JOBS)]]. *)
Definition workers_init : list Worker :=
  replicate (Z.to_nat INITIAL_JOBS) (Worker_init (Py.float_of_int INITIAL_WAGE)).

(** [Economy.__init__]. *)
Definition Economy_init : Economy :=
  let total := Py.float_of_int (INITIAL_JOBS * INITIAL_WAGE) * BETA in
  {| num_employed := INITIAL_JOBS;
     workers := workers_init;
     ai_firm := AIFirm_init;
     non_ai_firms := replicate 5 NonAIFirm_init;
     government := Government_init;
     total_consumption := total;
     initial_consumption := total;
     data := {| Employment := [INITIAL_JOBS]; Consumption := [total];
                Tax_Revenue := [0]; AI_Profit := [0]; Non_AI_Revenue := [0] |} |}.

(** The loop
    [for i, worker in enumerate(workers):
         if i < jobs_to_automate and worker.employed: worker.employed = False]. *)
Definition automate (jobs_to_automate : Z) (ws : list Worker) : list Worker :=
  imap (λ i worker,
          if bool_decide (Z.of_nat i < jobs_to_automate)%Z && employed worker
          then set_unemployed worker else worker) ws.

(** [Economy.step]. *)
Definition step (e : Economy) : option Economy :=
  let workers1 := Worker_update <$> workers e in
  let total := Py.sum (consumption <$> workers1) in
  '(ai_firm1, jobs_to_automate) ←
    AIFirm_update (ai_firm e) (num_employed e) total (initial_consumption e);
  let workers2 := automate jobs_to_automate workers1 in
  let num_employed2 := count_employed workers2 in
  let firms2 := NonAIFirm_update total <$> non_ai_firms e in
  let '(gov2, stimulus) := Government_update (government e) num_employed2 firms2 in
  let total2 := total + stimulus in
  Some {| num_employed := num_employed2;
          workers := workers2;
          ai_firm := ai_firm1;
          non_ai_firms := firms2;
          government := gov2;
          total_consumption := total2;
          initial_consumption := initial_consumption e;
          data := record (data e) num_employed2 total2 (tax_revenue gov2)
                    (material_gain ai_firm1) (Py.sum (revenue <$> firms2)) |}.

(** [for _ in range(n): economy.step()]. *)
Fixpoint steps (n : nat) (e : Economy) : option Economy :=
  match n with
  | O => Some e
  | S n' => e' ← step e; steps n' e'
  end.

End AiEconomy.

(** ** The NumPy generator

    [eco.py] and [python/chess.py] draw from the generator that NumPy keeps
    for the whole process.  Its state is made explicit: each draw takes the
    state and returns the value with the next state.  The two laws are the
    ones the scripts rely on: a draw of [n] values has [n] values, a shuffle
    permutes. *)

Class NumpyRandom (G : Type) := {
  (** [np.random.normal(loc, scale)] *)
  random_normal : Qc → Qc → G → Qc * G;
  (** [np.random.normal(loc, scale, n)] *)
  random_normal_n : Qc → Qc → nat → G → list Qc * G;
  (** [np.random.shuffle(xs)], on a list of indices *)
  random_shuffle : list nat → G → list nat * G;
  random_normal_n_length loc scale n g :
    length (random_normal_n loc scale n g).1 = n;
  random_shuffle_perm xs g : (random_shuffle xs g).1 ≡ₚ xs
}.

(** [np.clip(w, a_min, None)] on one value. *)
Definition np_clip_min (a_min w : Qc) : Qc :=
  if decide (w < a_min) then a_min else w.

(** ** [eco.py] *)

Module Eco.

Definition ALPHA_MEAN : Qc := Q2Qc 0.05.
Definition ALPHA_STD : Qc := Q2Qc 0.01.
Definition INITIAL_JOBS : nat := 1000.
Definition INITIAL_WAGE_MEAN : Z := 100.
Definition INITIAL_WAGE_STD : Z := 10.

(** [Government.update]; the argument [num_employed] is not used. *)
Definition Government_update (gov : Government) (num_employed : Z)
    (non_ai_firms : list NonAIFirm) (workers : list Worker) : Government * Qc :=
  let wages := Py.sum (wage <$> filter (λ w, employed w) workers) in
  let firm_revenue := Py.sum (revenue <$> non_ai_firms) in
  let tax := TAU * (wages + firm_revenue) in
  ({| tax_revenue := tax |}, Q2Qc 0.5 * tax).

(** [employed_indices[:jobs_to_automate]] and the loop over it. *)
Definition automate (jobs_to_automate : Z) (ws : list Worker) : option (list Worker) :=
  let employed_indices := employed_indices ws in
  let to_automate_indices := Py.slice_to employed_indices jobs_to_automate in
  automate_indices to_automate_indices ws.

Section WithGenerator.
Context {G : Type} `{!NumpyRandom G}.

(** [AIFirm.update]. *)
Definition AIFirm_update (f : AIFirm) (num_employed : Z)
    (total_consumption initial_consumption : Qc) (g : G) : option (AIFirm * Z * G) :=
  let '(draw, g1) := random_normal ALPHA_MEAN ALPHA_STD g in
  let alpha := Py.max 0 draw in
  let jobs_to_automate := Py.int (alpha * Py.float_of_int num_employed) in
  ratio ← demand_ratio total_consumption initial_consumption;
  let profit_adjusted := adjusted_profit jobs_to_automate ratio in
  Some ({| material_gain := material_gain f + profit_adjusted |},
        jobs_to_automate, g1).

(** [Economy.__init__]. *)
Definition Economy_init (g : G) : Economy * G :=
  let '(wages, g1) :=
    random_normal_n (Py.float_of_int INITIAL_WAGE_MEAN)
      (Py.float_of_int INITIAL_WAGE_STD) INITIAL_JOBS g in
  let wages := np_clip_min (Py.float_of_int 10) <$> wages in
  let workers := Worker_init <$> wages in
  let total := Py.sum (consumption <$> workers) in
  ({| num_employed := Z.of_nat INITIAL_JOBS;
      workers := workers;
      ai_firm := AIFirm_init;
      non_ai_firms := replicate 5 NonAIFirm_init;
      government := Government_init;
      total_consumption := total;
      initial_consumption := total;
      data := {| Employment := [Z.of_nat INITIAL_JOBS]; Consumption := [total];
                 Tax_Revenue := [0]; AI_Profit := [0]; Non_AI_Revenue := [0] |} |},
   g1).

(** [Economy.step]. *)
Definition step (e : Economy) (g : G) : option (Economy * G) :=
  let workers1 := Worker_update <$> workers e in
  let total := Py.sum (consumption <$> workers1) in
  '(ai_firm1, jobs_to_automate, g1) ←
    AIFirm_update (ai_firm e) (num_employed e) total (initial_consumption e) g;
  workers2 ← automate jobs_to_automate workers1;
  let num_employed2 := count_employed workers2 in
  let firms2 := NonAIFirm_update total <$> non_ai_firms e in
  let '(gov2, stimulus) :=
    Government_update (government e) num_employed2 firms2 workers2 in
  let total2 := total + stimulus in
  Some ({| num_employed := num_employed2;
           workers := workers2;
           ai_firm := ai_firm1;
           non_ai_firms := firms2;
           government := gov2;
           total_consumption := total2;
           initial_consumption := initial_consumption e;
           data := record (data e) num_employed2 total2 (tax_revenue gov2)
                     (material_gain ai_firm1) (Py.sum (revenue <$> firms2)) |},
        g1).

(** [for _ in range(n): economy.step()]. *)
Fixpoint steps (n : nat) (e : Economy) (g : G) : option (Economy * G) :=
  match n with
  | O => Some (e, g)
  | S n' => '(e', g') ← step e g; steps n' e' g'
  end.

(** [run_simulation], up to the plotting: the recorded [data]. *)
Definition run_simulation (g : G) : option (Data * G) :=
  let '(economy, g1) := Economy_init g in
  '(economy', g2) ← steps NUM_STEPS economy g1;
  Some (data economy', g2).

End WithGenerator.

End Eco.

(** ** [python/chess.py] *)

Module Chess.

Definition GRID_ROWS : nat := 25.
Definition GRID_COLS : nat := 40.
Definition NUM_WORKERS : nat := GRID_ROWS * GRID_COLS.
Definition ALPHA_MEAN : Qc := Q2Qc 0.05.
Definition ALPHA_STD : Qc := Q2Qc 0.01.
Definition INITIAL_WAGE_MEAN : Z := 100.
Definition INITIAL_WAGE_STD : Z := 10.

(** [Worker.__init__]. *)
Definition Worker_init (w : Qc) : Worker :=
  {| wage := w; employed := true; consumption := BETA * w |}.

(** [Worker.update]. *)
Definition Worker_update (w : Worker) : Worker :=
  {| employed := employed w; wage := wage w;
     consumption := if employed w then BETA * wage w else 0 |}.

(** [Government.update]. *)
Definition Government_update (gov : Government)
    (workers : list Worker) (firms : list NonAIFirm) : Government * Qc :=
  let wages := Py.sum (wage <$> filter (λ w, employed w) workers) in
  let revenue := Py.sum (revenue <$> firms) in
  let tax := TAU * (wages + revenue) in
  ({| tax_revenue := tax |}, Q2Qc 0.5 * tax).

(** One dictionary of [history]. *)
Record Snapshot := mkSnapshot {
  h_employment : list bool;
  h_wages : list Qc;
  h_ai_profit : Qc;
  h_tax_revenue : Qc;
  h_consumption : Qc
}.

Record Economy := mkEconomy {
  workers : list Worker;
  ai_firm : AIFirm;
  non_ai_firms : list NonAIFirm;
  government : Government;
  initial_consumption : Qc;
  total_consumption : Qc;
  history : list Snapshot
}.

(** [sum(w.employed for w in workers)]: the booleans count as 0 and 1. *)
Definition sum_employed (ws : list Worker) : Z :=
  Py.isum ((λ w, if employed w then 1%Z else 0%Z) <$> ws).

Section WithGenerator.
Context {G : Type} `{!NumpyRandom G}.

(** [AIFirm.update]. *)
Definition AIFirm_update (f : AIFirm) (num_employed : Z)
    (total_consumption initial_consumption : Qc) (g : G) : option (AIFirm * Z * G) :=
  let '(draw, g1) := random_normal ALPHA_MEAN ALPHA_STD g in
  let alpha := Py.max 0 draw in
  let jobs_to_automate := Py.int (alpha * Py.float_of_int num_employed) in
  ratio ← demand_ratio total_consumption initial_consumption;
  let adjusted_profit := adjusted_profit jobs_to_automate ratio in
  Some ({| material_gain := material_gain f + adjusted_profit |},
        jobs_to_automate, g1).

(** The shuffle of the employed indices and the loop over its first
    [jobs_to_automate] entries. *)
Definition automate (jobs_to_automate : Z) (ws : list Worker) (g : G)
    : option (list Worker * G) :=
  let employed_indices := employed_indices ws in
  let '(employed_indices, g1) := random_shuffle employed_indices g in
  ws' ← automate_indices (Py.slice_to employed_indices jobs_to_automate) ws;
  Some (ws', g1).

(** [Economy.__init__]. *)
Definition Economy_init (g : G) : Economy * G :=
  let '(wages, g1) :=
    random_normal_n (Py.float_of_int INITIAL_WAGE_MEAN)
      (Py.float_of_int INITIAL_WAGE_STD) NUM_WORKERS g in
  let wages := np_clip_min (Py.float_of_int 10) <$> wages in
  let workers := Worker_init <$> wages in
  let initial := Py.sum (consumption <$> workers) in
  ({| workers := workers;
      ai_firm := AIFirm_init;
      non_ai_firms := replicate 5 NonAIFirm_init;
      government := Government_init;
      initial_consumption := initial;
      total_consumption := initial;
      history := [] |},
   g1).

(** The dictionary appended to [history]. *)
Definition snapshot (ws : list Worker) (f : AIFirm) (gov : Government)
    (total_consumption : Qc) : Snapshot :=
  {| h_employment := employed <$> ws;
     h_wages := (λ w, if employed w then wage w else 0) <$> ws;
     h_ai_profit := material_gain f;
     h_tax_revenue := tax_revenue gov;
     h_consumption := total_consumption |}.

(** [Economy.step]. *)
Definition step (e : Economy) (g : G) : option (Economy * G) :=
  let workers1 := Worker_update <$> workers e in
  let total := Py.sum (consumption <$> workers1) in
  let num_employed := sum_employed workers1 in
  '(ai_firm1, jobs_to_automate, g1) ←
    AIFirm_update (ai_firm e) num_employed total (initial_consumption e) g;
  '(workers2, g2) ← automate jobs_to_automate workers1 g1;
  let firms2 := NonAIFirm_update total <$> non_ai_firms e in
  let '(gov2, stimulus) := Government_update (government e) workers2 firms2 in
  let total2 := total + stimulus in
  Some ({| workers := workers2;
           ai_firm := ai_firm1;
           non_ai_firms := firms2;
           government := gov2;
           initial_consumption := initial_consumption e;
           total_consumption := total2;
           history := history e ++ [snapshot workers2 ai_firm1 gov2 total2] |},
        g2).

(** [for _ in range(n): economy.step()]. *)
Fixpoint steps (n : nat) (e : Economy) (g : G) : option (Economy * G) :=
  match n with
  | O => Some (e, g)
  | S n' => '(e', g') ← step e g; steps n' e' g'
  end.

(** [animate_economy], up to the drawing: the recorded [history]. *)
Definition animate_economy (g : G) : option (list Snapshot * G) :=
  let '(economy, g1) := Economy_init g in
  '(economy', g2) ← steps NUM_STEPS economy g1;
  Some (history economy', g2).

End WithGenerator.

End Chess.

(** ** Vocabulary of the properties *)

(** The workers at the positions that satisfy [P] become unemployed, the
    others are left as they are.  Each of the three automation loops is
    shown below to be an instance of it. *)
Definition flip_where (P : nat → bool) (ws : list Worker) : list Worker :=
  imap (λ i w, if P i then set_unemployed w else w) ws.

(** Membership in a list of selected indices, as a test. *)
Definition selected (idxs : list nat) (j : nat) : bool := bool_decide (j ∈ idxs).

(** The positions, in population order, of the workers employed in [ws]
    and not employed in [ws']. *)
Definition flipped (ws ws' : list Worker) : list nat :=
  filter (λ i, i ∉ employed_indices ws') (employed_indices ws).

(** The number of employed workers, as a natural number. *)
Definition employed_count (ws : list Worker) : nat :=
  length (employed_indices ws).

(** No worker goes from unemployed to employed, and the population is the
    same. *)
Definition no_rehiring (ws ws' : list Worker) : Prop :=
  length ws' = length ws ∧
  ∀ i w w', ws !! i = Some w → ws' !! i = Some w' →
            employed w = false → employed w' = false.

(** The attribute [num_employed] of [ai_economy.py] and [eco.py] holds the
    number of employed workers: true after [__init__] and after each
    [step]. *)
Definition consistent (e : Economy) : Prop :=
  num_employed e = count_employed (workers e).

(** The wages of the employed workers, as the two later scripts add them
    up: [sum(w.wage for w in workers if w.employed)]. *)
Definition employed_wages (ws : list Worker) : Qc :=
  Py.sum (wage <$> filter (λ w, employed w) ws).

(** [sum(f.revenue for f in firms)]. *)
Definition firm_revenues (fs : list NonAIFirm) : Qc :=
  Py.sum (revenue <$> fs).

(** The aggregate consumption that opens a step: every worker updated,
    then [sum(w.consumption for w in workers)]. *)
Definition pre_stimulus_total (ws : list Worker) : Qc :=
  Py.sum (consumption <$> (Worker_update <$> ws)).

(** The agents of [e'] are those of [e], field by field. *)
Definition agents_unchanged (e e' : Economy) : Prop :=
  workers e' = workers e ∧ ai_firm e' = ai_firm e ∧
  non_ai_firms e' = non_ai_firms e ∧ government e' = government e.

(** The derived fields of the agents are all zero. *)
Definition settled (ws : list Worker) (fs : list NonAIFirm) (gov : Government) : Prop :=
  Forall (λ w, consumption w = 0) ws ∧ Forall (λ f, revenue f = 0) fs ∧
  tax_revenue gov = 0.

(** Two generator states are related by [R] when every draw returns the
    same value from both and leaves them related. *)
Definition same_draws {G1 G2 : Type} `{!NumpyRandom G1, !NumpyRandom G2}
    (R : G1 → G2 → Prop) : Prop :=
  ∀ g1 g2, R g1 g2 →
    (∀ loc scale,
        (random_normal loc scale g1).1 = (random_normal loc scale g2).1 ∧
        R (random_normal loc scale g1).2 (random_normal loc scale g2).2) ∧
    (∀ loc scale n,
        (random_normal_n loc scale n g1).1 = (random_normal_n loc scale n g2).1 ∧
        R (random_normal_n loc scale n g1).2 (random_normal_n loc scale n g2).2) ∧
    (∀ xs,
        (random_shuffle xs g1).1 = (random_shuffle xs g2).1 ∧
        R (random_shuffle xs g1).2 (random_shuffle xs g2).2).

(** Two results of a computation run on two generators agree: both raise,
    or both return the same value and related generators. *)
Definition agree {G1 G2 A : Type} (R : G1 → G2 → Prop)
    (r1 : option (A * G1)) (r2 : option (A * G2)) : Prop :=
  match r1, r2 with
  | Some (a1, g1), Some (a2, g2) => a1 = a2 ∧ R g1 g2
  | None, None => True
  | _, _ => False
  end.

(** The same for the [Economy] of [python/chess.py]. *)
Definition chess_agents_unchanged (e e' : Chess.Economy) : Prop :=
  Chess.workers e' = Chess.workers e ∧ Chess.ai_firm e' = Chess.ai_firm e ∧
  Chess.non_ai_firms e' = Chess.non_ai_firms e ∧
  Chess.government e' = Chess.government e.

(** Total unemployment as an absorbing state of [eco.py], in the strong
    reading: once nobody is employed, a step leaves the agents as they are
    and appends zeros and the unchanged profit to the series. *)
Definition absorbing_unchanged `{!NumpyRandom G} (e : Economy) : Prop :=
  employed_indices (workers e) = [] →
  ∀ g : G, ∃ e' g',
    Eco.step e g = Some (e', g') ∧
    agents_unchanged e e' ∧
    data e' = record (data e) 0 0 0 (material_gain (ai_firm e)) 0.

(** What a step does to a state of [ai_economy.py] or [eco.py] without
    employed workers: wages, employment flags and the cumulative profit are
    kept, the derived fields are zero, and zeros and the unchanged profit
    are appended to the series. *)
Definition idle_reset (e e' : Economy) : Prop :=
  wage <$> workers e' = wage <$> workers e ∧
  employed <$> workers e' = employed <$> workers e ∧
  settled (workers e') (non_ai_firms e') (government e') ∧
  length (non_ai_firms e') = length (non_ai_firms e) ∧
  ai_firm e' = ai_firm e ∧
  num_employed e' = 0%Z ∧
  total_consumption e' = 0 ∧
  data e' = record (data e) 0 0 0 (material_gain (ai_firm e)) 0.

(** The same for [python/chess.py], whose snapshot holds the employment
    flags, the wages of the employed (0 for the others), the profit, the tax
    revenue and the consumption. *)
Definition chess_idle_reset (e e' : Chess.Economy) : Prop :=
  wage <$> Chess.workers e' = wage <$> Chess.workers e ∧
  employed <$> Chess.workers e' = employed <$> Chess.workers e ∧
  settled (Chess.workers e') (Chess.non_ai_firms e') (Chess.government e') ∧
  length (Chess.non_ai_firms e') = length (Chess.non_ai_firms e) ∧
  Chess.ai_firm e' = Chess.ai_firm e ∧
  Chess.total_consumption e' = 0 ∧
  Chess.history e'
  = Chess.history e
    ++ [{| Chess.h_employment := (λ _, false) <$> Chess.workers e;
           Chess.h_wages := (λ _, 0) <$> Chess.workers e;
           Chess.h_ai_profit := material_gain (Chess.ai_firm e);
           Chess.h_tax_revenue := 0;
           Chess.h_consumption := 0 |}].

(** A small state of [ai_economy.py] or [eco.py] in which the only worker
    has just been automated: its consumption and the figures of the firm
    and of the government are those of the step that automated it. *)
Definition just_automated : Economy :=
  {| num_employed := 0;
     workers := [set_unemployed (Worker_init (Py.float_of_int 100))];
     ai_firm := {| material_gain := Py.float_of_int 50 |};
     non_ai_firms := [{| revenue := Py.float_of_int 56 |}];
     government := {| tax_revenue := Q2Qc 16.8 |};
     total_consumption := Q2Qc 88.4;
     initial_consumption := Py.float_of_int 80;
     data := {| Employment := [1%Z; 0%Z];
                Consumption := [Py.float_of_int 80; Q2Qc 88.4];
                Tax_Revenue := [0; Q2Qc 16.8];
                AI_Profit := [0; Py.float_of_int 50];
                Non_AI_Revenue := [0; Py.float_of_int 56] |} |}.

(** The same state for [python/chess.py]. *)
Definition chess_just_automated : Chess.Economy :=
  {| Chess.workers := [set_unemployed (Worker_init (Py.float_of_int 100))];
     Chess.ai_firm := {| material_gain := Py.float_of_int 50 |};
     Chess.non_ai_firms := [{| revenue := Py.float_of_int 56 |}];
     Chess.government := {| tax_revenue := Q2Qc 16.8 |};
     Chess.initial_consumption := Py.float_of_int 80;
     Chess.total_consumption := Q2Qc 88.4;
     Chess.history := [] |}.

(** A tape for [eco.py]: 1000 deviates 0, so that every wage is the mean
    wage, then a deviate of 95, so that the first rate drawn is
    [0.05 + 0.01 * 95 = 1]. *)
Definition all_automated_tape : list Qc :=
  replicate 1000 0 ++ [Py.float_of_int 95].

(** The states [eco.py] can be in between two steps: the one built by
    [Economy()], and those a step leads to, whatever the generator does. *)
Inductive eco_reachable {G : Type} `{!NumpyRandom G} : Economy → Prop :=
  | eco_reachable_init (g : G) : eco_reachable (Eco.Economy_init g).1
  | eco_reachable_step e (g : G) e' g' :
      eco_reachable e → Eco.step e g = Some (e', g') → eco_reachable e'.

(** The same for [python/chess.py]. *)
Inductive chess_reachable {G : Type} `{!NumpyRandom G} : Chess.Economy → Prop :=
  | chess_reachable_init (g : G) : chess_reachable (Chess.Economy_init g).1
  | chess_reachable_step e (g : G) e' g' :
      chess_reachable e → Chess.step e g = Some (e', g') → chess_reachable e'.

(** The same for [ai_economy.py], which draws nothing. *)
Inductive ai_reachable : Economy → Prop :=
  | ai_reachable_init : ai_reachable AiEconomy.Economy_init
  | ai_reachable_step e e' :
      ai_reachable e → AiEconomy.step e = Some e' → ai_reachable e'.

(** The five series of [data] have [n] entries each. *)
Definition series_lengths (d : Data) (n : nat) : Prop :=
  length (Employment d) = n ∧ length (Consumption d) = n ∧
  length (Tax_Revenue d) = n ∧ length (AI_Profit d) = n ∧
  length (Non_AI_Revenue d) = n.

(** No entry of the series is above the entry before it. *)
Definition non_increasing (xs : list Z) : Prop :=
  ∀ i a b, xs !! i = Some a → xs !! S i = Some b → (b ≤ a)%Z.

(** The baseline [initial_consumption] is the consumption of the whole
    population at work. *)
Definition baseline_of_population (ic : Qc) (ws : list Worker) : Prop :=
  ic = Py.sum ((λ x, x * BETA) <$> (wage <$> ws)).

(** The rows of [np.array(xs).reshape((rows, cols))]: filled one after the
    other from [xs]. *)
Fixpoint rows_of (rows cols : nat) (xs : list Qc) : list (list Qc) :=
  match rows with
  | O => []
  | S rows' => take cols xs :: rows_of rows' cols (drop cols xs)
  end.

(** [np.array(xs).reshape((rows, cols))] raises [ValueError] unless [xs]
    has [rows * cols] entries. *)
Definition np_reshape (rows cols : nat) (xs : list Qc) : option (list (list Qc)) :=
  if decide (length xs = rows * cols)%nat then Some (rows_of rows cols xs) else None.

(** [np.mean(bs)] of a list of booleans, which count as 0 and 1; [None]
    stands for the [nan] that NumPy returns for an empty list. *)
Definition np_mean_bool (bs : list bool) : option Qc :=
  Py.truediv
    (Py.float_of_int (Py.isum ((λ b : bool, if b then 1%Z else 0%Z) <$> bs)))
    (Py.float_of_int (Z.of_nat (length bs))).

(** The values that [update(frame)] of [animate_economy] computes from
    [economy.history[frame]]: the grid of wages handed to the image and
    [employed_pct].  The formatting of the texts and the drawing are left
    out. *)
Definition frame_values (history : list Chess.Snapshot) (frame : nat)
    : option (list (list Qc) * Qc) :=
  data ← Py.getitem history frame;
  grid ← np_reshape Chess.GRID_ROWS Chess.GRID_COLS (Chess.h_wages data);
  mean ← np_mean_bool (Chess.h_employment data);
  Some (grid, mean * Py.float_of_int 100).

(** A flag that is [False] in [bs] is [False] in [bs']. *)
Definition flags_never_return (bs bs' : list bool) : Prop :=
  ∀ j, bs !! j = Some false → bs' !! j = Some false.

(** A snapshot of [python/chess.py] is the picture of the workers [ws]. *)
Definition snapshot_of (s : Chess.Snapshot) (ws : list Worker) : Prop :=
  Chess.h_employment s = employed <$> ws ∧
  Chess.h_wages s = (λ w, if employed w then wage w else 0) <$> ws.

(** The state of a run of [ai_economy.py] after [k] steps, as far as
    employment goes: the workers at the positions 0..49 are the only ones
    ever automated. *)
Definition ai_stalled (k : nat) (e : Economy) : Prop :=
  Employment (data e) = 1000%Z :: replicate k 950%Z ∧
  num_employed e = (if k is O then 1000%Z else 950%Z) ∧
  employed_indices (workers e) = (if k is O then seq 0 1000 else seq 50 950).

(** [max(values)]: the first of the greatest values; raises [ValueError] on
    an empty list. *)
Definition py_max_list (values : list Qc) : option Qc :=
  match values with
  | [] => None
  | v :: values' => Some (foldl Py.max v values')
  end.

(** The list comprehension of [run_simulation] in [eco.py]:
    [[v / max(values) if max(values) > 0 else 0 for v in values]]. *)
Definition eco_normalize (values : list Qc) : option (list Qc) :=
  mapM (λ v, m ← py_max_list values;
             if decide (0 < m) then Py.truediv v m else Some 0) values.

(** The list comprehension of the main block of [ai_economy.py]:
    [[v / max(values) for v in values]]. *)
Definition ai_normalize (values : list Qc) : option (list Qc) :=
  mapM (λ v, m ← py_max_list values; Py.truediv v m) values.

(** No entry of the series is below the entry before it. *)
Definition non_decreasing (xs : list Qc) : Prop :=
  ∀ i a b, xs !! i = Some a → xs !! S i = Some b → a ≤ b.

(** The state of a run of [ai_economy.py] after the first step and [k]
    further steps. *)
Definition ai_stalled_profit (k : nat) (e : Economy) : Prop :=
  employed_indices (workers e) = seq 50 950 ∧
  num_employed e = 950%Z ∧
  Forall (λ w, wage w = Py.float_of_int AiEconomy.INITIAL_WAGE) (workers e) ∧
  initial_consumption e = Py.float_of_int 80000 ∧
  material_gain (ai_firm e)
  = Py.float_of_int 2500 + Py.float_of_int (Z.of_nat k) * Q2Qc 2291.25.

(** A tape of standard normal deviates, replayed in order, as a simple
    instance of the generator: a normal draw scales and shifts the next
    deviate (0 once the tape is exhausted), a shuffle reverses the list when
    the next deviate is negative. *)
Module Tape.

Definition next (t : list Qc) : Qc * list Qc :=
  match t with
  | [] => (0, [])
  | z :: t' => (z, t')
  end.

Definition normal (loc scale : Qc) (t : list Qc) : Qc * list Qc :=
  let '(z, t') := next t in (loc + scale * z, t').

Fixpoint normal_n (loc scale : Qc) (n : nat) (t : list Qc) : list Qc * list Qc :=
  match n with
  | O => ([], t)
  | S n' =>
      let '(x, t1) := normal loc scale t in
      let '(xs, t2) := normal_n loc scale n' t1 in
      (x :: xs, t2)
  end.

Definition shuffle (xs : list nat) (t : list Qc) : list nat * list Qc :=
  let '(z, t') := next t in
  (if decide (z < 0) then reverse xs else xs, t').

End Tape.

(** * Properties *)

(** ** Numbers *)

Section Numbers.

Lemma this_float_of_int z : this (Py.float_of_int z) = inject_Z z.
Proof. apply Qred_identity. simpl. apply Z.gcd_1_r. Qed.

Lemma float_of_int_0 : Py.float_of_int 0 = 0.
Proof. reflexivity. Qed.

Lemma float_of_int_nonneg z : (0 ≤ z)%Z → 0 ≤ Py.float_of_int z.
Proof.
  intros Hz. unfold Qcle. rewrite this_float_of_int. simpl.
  unfold Qle. simpl. lia.
Qed.

Lemma int_nonneg x : 0 ≤ x → (0 ≤ Py.int x)%Z.
Proof.
  intros Hx. unfold Py.int. apply Z.quot_pos; [|lia].
  unfold Qcle, Qle in Hx. simpl in Hx. lia.
Qed.

Lemma int_0 : Py.int 0 = 0%Z.
Proof. reflexivity. Qed.

Lemma int_float_of_int z : Py.int (Py.float_of_int z) = z.
Proof. unfold Py.int. rewrite this_float_of_int. simpl. apply Z.quot_1_r. Qed.

Lemma max_ge_l a b : a ≤ Py.max a b.
Proof.
  unfold Py.max. destruct (decide (a < b)) as [Hlt|Hge].
  - by apply Qclt_le_weak.
  - apply Qcle_refl.
Qed.

Lemma max_ge_r a b : b ≤ Py.max a b.
Proof.
  unfold Py.max. destruct (decide (a < b)) as [Hlt|Hge].
  - apply Qcle_refl.
  - by apply Qcnot_lt_le.
Qed.

Lemma max_0_l_id x : 0 ≤ x → Py.max 0 x = x.
Proof.
  intros Hx. unfold Py.max. destruct (decide (0 < x)) as [Hlt|Hge]; [done|].
  apply Qcnot_lt_le in Hge. by apply Qcle_antisym.
Qed.

Lemma sum_foldl (a : Qc) xs : foldl Qcplus a xs = a + Py.sum xs.
Proof.
  unfold Py.sum. revert a. induction xs as [|x xs IH]; intros a; simpl.
  - ring.
  - rewrite (IH (a + x)), (IH (0 + x)). ring.
Qed.

Lemma sum_nil : Py.sum [] = 0.
Proof. reflexivity. Qed.

Lemma sum_cons x xs : Py.sum (x :: xs) = x + Py.sum xs.
Proof. unfold Py.sum at 1. simpl. rewrite sum_foldl. ring. Qed.

Lemma sum_zero xs : Forall (λ x, x = 0) xs → Py.sum xs = 0.
Proof.
  induction 1 as [|x xs Hx _ IH]; [done|].
  rewrite sum_cons, Hx, IH. ring.
Qed.

Lemma isum_foldl (a : Z) xs : foldl Z.add a xs = (a + Py.isum xs)%Z.
Proof.
  unfold Py.isum. revert a. induction xs as [|x xs IH]; intros a; simpl.
  - lia.
  - rewrite (IH (a + x)%Z), (IH (0 + x)%Z). lia.
Qed.

Lemma isum_cons x xs : Py.isum (x :: xs) = (x + Py.isum xs)%Z.
Proof. unfold Py.isum at 1. simpl. by rewrite isum_foldl. Qed.

(** The guard makes the division safe: the ratio is always defined. *)
Lemma demand_ratio_pos tc ic : 0 < ic → demand_ratio tc ic = Some (tc / ic).
Proof.
  intros Hic. unfold demand_ratio, Py.truediv.
  rewrite decide_True by done.
  rewrite decide_False; [done|].
  intros ->. by apply Qclt_not_eq in Hic.
Qed.

Lemma demand_ratio_nonpos tc ic : ic ≤ 0 → demand_ratio tc ic = Some 0.
Proof.
  intros Hic. unfold demand_ratio.
  rewrite decide_False; [done|]. by apply Qcle_not_lt.
Qed.

Lemma demand_ratio_total tc ic : is_Some (demand_ratio tc ic).
Proof.
  destruct (Qclt_le_dec 0 ic).
  - rewrite demand_ratio_pos by done. eauto.
  - rewrite demand_ratio_nonpos by done. eauto.
Qed.

Lemma adjusted_profit_nonneg jobs ratio : (0 ≤ jobs)%Z → 0 ≤ adjusted_profit jobs ratio.
Proof.
  intros Hjobs. unfold adjusted_profit, raw_profit, AI_PROFIT_PER_JOB.
  apply Qcmult_nonneg_nonneg.
  - apply float_of_int_nonneg. lia.
  - apply max_ge_l.
Qed.

Lemma adjusted_profit_0 ratio : adjusted_profit 0 ratio = 0.
Proof.
  unfold adjusted_profit, raw_profit. rewrite Z.mul_0_l, float_of_int_0. ring.
Qed.

Lemma gain_le_add g p : 0 ≤ p → g ≤ g + p.
Proof.
  intros Hp. rewrite <- (Qcplus_0_r g) at 1. by apply Qcplus_le_mono_l.
Qed.

(** [int(alpha * n)] is not negative for a clamped rate and a count. *)
Lemma jobs_nonneg alpha n :
  0 ≤ alpha → (0 ≤ n)%Z → (0 ≤ Py.int (alpha * Py.float_of_int n))%Z.
Proof.
  intros Ha Hn. apply int_nonneg, Qcmult_nonneg_nonneg; [done|].
  by apply float_of_int_nonneg.
Qed.

Lemma jobs_0 alpha : Py.int (alpha * Py.float_of_int 0) = 0%Z.
Proof. rewrite float_of_int_0, Qcmult_0_r. reflexivity. Qed.

End Numbers.

(** ** The employed indices and the automation loops *)

Section Selection.

Implicit Types (ws : list Worker) (P : nat → bool) (idxs : list nat).

Lemma filter_ext_elem_of {A} (P Q : A → Prop)
    `{!∀ x, Decision (P x), !∀ x, Decision (Q x)} (l : list A) :
  (∀ x, x ∈ l → P x ↔ Q x) → filter P l = filter Q l.
Proof.
  induction l as [|x l IH]; intros HPQ; [done|].
  rewrite !filter_cons.
  rewrite IH by (intros y Hy; apply HPQ; by right).
  destruct (decide (P x)) as [HP|HP], (decide (Q x)) as [HQ|HQ]; try done.
  - destruct HQ. apply HPQ; [by left | done].
  - destruct HP. apply HPQ; [by left | done].
Qed.

Lemma filter_all {A} (P : A → Prop) `{!∀ x, Decision (P x)} (l : list A) :
  (∀ x, x ∈ l → P x) → filter P l = l.
Proof.
  induction l as [|x l IH]; intros HP; [done|].
  rewrite filter_cons_True by (apply HP; by left).
  f_equal. apply IH. intros y Hy. apply HP. by right.
Qed.

Lemma filter_none {A} (P : A → Prop) `{!∀ x, Decision (P x)} (l : list A) :
  (∀ x, x ∈ l → ¬ P x) → filter P l = [].
Proof.
  induction l as [|x l IH]; intros HP; [done|].
  rewrite filter_cons_False by (apply HP; by left).
  apply IH. intros y Hy. apply HP. by right.
Qed.

Lemma set_unemployed_id w : employed w = false → set_unemployed w = w.
Proof. destruct w as [[] ? ?]; simpl; [discriminate | done]. Qed.

Lemma set_unemployed_idemp w : set_unemployed (set_unemployed w) = set_unemployed w.
Proof. done. Qed.

Lemma elem_of_employed_indices_from i ws j :
  j ∈ employed_indices_from i ws ↔
  ∃ w, (i ≤ j)%nat ∧ ws !! (j - i)%nat = Some w ∧ employed w = true.
Proof.
  revert i. induction ws as [|w ws IH]; intros i; simpl.
  - split; [by intros ?%elem_of_nil | by intros (? & _ & ? & _)].
  - assert (Htl : j ∈ employed_indices_from (S i) ws ↔
                  ∃ w', (i < j)%nat ∧ ws !! (j - S i)%nat = Some w' ∧ employed w' = true).
    { rewrite IH. split; intros (w' & ? & ? & ?); exists w'; split_and!; done || lia. }
    destruct (employed w) eqn:Hw.
    + rewrite elem_of_cons, Htl. split.
      * intros [->|(w' & Hlt & Hl & He)].
        -- exists w. rewrite Nat.sub_diag. done.
        -- exists w'. split_and!; [lia| |done].
           replace (j - i)%nat with (S (j - S i)) by lia. done.
      * intros (w' & Hle & Hl & He).
        destruct (decide (j = i)) as [->|Hne]; [by left|right].
        exists w'. split_and!; [lia| |done].
        replace (j - i)%nat with (S (j - S i)) in Hl by lia. done.
    + rewrite Htl. split.
      * intros (w' & Hlt & Hl & He). exists w'. split_and!; [lia| |done].
        replace (j - i)%nat with (S (j - S i)) by lia. done.
      * intros (w' & Hle & Hl & He).
        destruct (decide (j = i)) as [->|Hne].
        { rewrite Nat.sub_diag in Hl. simpl in Hl. congruence. }
        exists w'. split_and!; [lia| |done].
        replace (j - i)%nat with (S (j - S i)) in Hl by lia. done.
Qed.

Lemma elem_of_employed_indices ws j :
  j ∈ employed_indices ws ↔ ∃ w, ws !! j = Some w ∧ employed w = true.
Proof.
  unfold employed_indices. rewrite elem_of_employed_indices_from.
  rewrite Nat.sub_0_r. split.
  - intros (w & _ & ? & ?). eauto.
  - intros (w & ? & ?). exists w. split_and!; done || lia.
Qed.

Lemma employed_indices_lt ws : Forall (λ j, (j < length ws)%nat) (employed_indices ws).
Proof.
  apply Forall_forall. intros j (w & Hl & _)%elem_of_employed_indices.
  by apply lookup_lt_Some in Hl.
Qed.

Lemma NoDup_employed_indices_from i ws : NoDup (employed_indices_from i ws).
Proof.
  revert i. induction ws as [|w ws IH]; intros i; simpl; [constructor|].
  destruct (employed w); [|done].
  constructor; [|done].
  intros (w' & Hle & _)%elem_of_employed_indices_from. lia.
Qed.

Lemma NoDup_employed_indices ws : NoDup (employed_indices ws).
Proof. apply NoDup_employed_indices_from. Qed.

Lemma length_employed_indices_from i ws :
  length (employed_indices_from i ws) = length (filter (λ w, employed w) ws).
Proof.
  revert i. induction ws as [|w ws IH]; intros i; simpl; [done|].
  destruct (employed w) eqn:Hw.
  - rewrite filter_cons_True by (by apply Is_true_true). simpl. by rewrite IH.
  - rewrite filter_cons_False by (by apply Is_true_false). by rewrite IH.
Qed.

Lemma employed_count_le_length ws : (employed_count ws ≤ length ws)%nat.
Proof.
  unfold employed_count, employed_indices.
  rewrite length_employed_indices_from. apply length_filter.
Qed.

(** The two ways the scripts count the employed workers agree. *)
Lemma count_employed_spec ws : count_employed ws = Z.of_nat (employed_count ws).
Proof.
  unfold count_employed, employed_count, employed_indices.
  rewrite length_employed_indices_from.
  induction (filter _ ws) as [|w l IH]; [done|].
  rewrite fmap_cons, isum_cons, IH. simpl length. lia.
Qed.

Lemma sum_employed_spec ws : Chess.sum_employed ws = Z.of_nat (employed_count ws).
Proof.
  unfold Chess.sum_employed, employed_count, employed_indices.
  generalize 0%nat. induction ws as [|w ws IH]; intros i; [done|].
  rewrite fmap_cons, isum_cons. simpl.
  destruct (employed w); simpl length; rewrite (IH (S i)); lia.
Qed.

Lemma count_employed_nonneg ws : (0 ≤ count_employed ws)%Z.
Proof. rewrite count_employed_spec. lia. Qed.

(** *** [flip_where] *)

Lemma lookup_flip_where P ws j :
  flip_where P ws !! j = (λ w, if P j then set_unemployed w else w) <$> ws !! j.
Proof. unfold flip_where. by rewrite list_lookup_imap. Qed.

Lemma length_flip_where P ws : length (flip_where P ws) = length ws.
Proof. apply length_imap. Qed.

Lemma flip_where_ext P Q ws :
  (∀ j, (j < length ws)%nat → P j = Q j) → flip_where P ws = flip_where Q ws.
Proof.
  intros HPQ. apply imap_ext. intros j w Hl.
  by rewrite (HPQ j) by (by apply lookup_lt_Some in Hl).
Qed.

Lemma wage_flip_where P ws : wage <$> flip_where P ws = wage <$> ws.
Proof.
  apply list_eq. intros j. rewrite !list_lookup_fmap, lookup_flip_where.
  destruct (ws !! j) as [w|]; simpl; [|done]. by destruct (P j).
Qed.

Lemma consumption_flip_where P ws :
  consumption <$> flip_where P ws = consumption <$> ws.
Proof.
  apply list_eq. intros j. rewrite !list_lookup_fmap, lookup_flip_where.
  destruct (ws !! j) as [w|]; simpl; [|done]. by destruct (P j).
Qed.

Lemma no_rehiring_flip_where P ws : no_rehiring ws (flip_where P ws).
Proof.
  split; [apply length_flip_where|].
  intros j w w' Hw Hw' He. rewrite lookup_flip_where, Hw in Hw'.
  simpl in Hw'. injection Hw' as <-. by destruct (P j).
Qed.

Lemma elem_of_employed_indices_flip_where P ws j :
  j ∈ employed_indices (flip_where P ws) ↔ j ∈ employed_indices ws ∧ P j = false.
Proof.
  rewrite !elem_of_employed_indices. setoid_rewrite lookup_flip_where. split.
  - intros (w' & Hl & He). destruct (ws !! j) as [w|]; [|done].
    simpl in Hl. injection Hl as <-. destruct (P j); [done|]. eauto.
  - intros ((w & Hl & He) & HP). rewrite Hl, HP. simpl. eauto.
Qed.

Lemma employed_indices_from_flip i P ws :
  employed_indices_from i (imap (λ k w, if P (i + k)%nat then set_unemployed w else w) ws)
  = filter (λ j, ¬ P j) (employed_indices_from i ws).
Proof.
  revert i. induction ws as [|w ws IH]; intros i; [done|].
  rewrite imap_cons. simpl.
  assert (Htl :
    employed_indices_from (S i)
      (imap ((λ k w, if P (i + k)%nat then set_unemployed w else w) ∘ S) ws)
    = filter (λ j, ¬ P j) (employed_indices_from (S i) ws)).
  { rewrite <- IH. f_equal. apply imap_ext. intros k w' _. simpl.
    by replace (i + S k)%nat with (S (i + k)) by lia. }
  rewrite Nat.add_0_r.
  destruct (P i) eqn:HP, (employed w) eqn:Hw; simpl; rewrite ?Hw, Htl.
  - rewrite filter_cons_False; [done|]. rewrite HP. by intros [].
  - done.
  - rewrite filter_cons_True; [done|]. rewrite HP. intros [].
  - done.
Qed.

(** The employed indices after a flip: those that were not selected, in
    the same order. *)
Lemma employed_indices_flip_where P ws :
  employed_indices (flip_where P ws) = filter (λ j, ¬ P j) (employed_indices ws).
Proof. apply (employed_indices_from_flip 0). Qed.

Lemma employed_count_flip_where_le P ws :
  (employed_count (flip_where P ws) ≤ employed_count ws)%nat.
Proof.
  unfold employed_count. rewrite employed_indices_flip_where. apply length_filter.
Qed.

(** The workers flipped by [flip_where]: the employed ones that were
    selected, in population order. *)
Lemma flipped_flip_where P ws :
  flipped ws (flip_where P ws) = filter (λ j, P j) (employed_indices ws).
Proof.
  unfold flipped. apply filter_ext_elem_of. intros j Hj.
  rewrite elem_of_employed_indices_flip_where. split.
  - intros Hn. destruct (P j); [done|]. by destruct Hn.
  - intros HP [_ HP']. by rewrite HP' in HP.
Qed.

(** Employed before = flipped + employed after. *)
Lemma employed_count_flip_where P ws :
  employed_count ws
  = (length (flipped ws (flip_where P ws)) + employed_count (flip_where P ws))%nat.
Proof.
  unfold employed_count.
  rewrite flipped_flip_where, employed_indices_flip_where.
  rewrite <- length_app. apply Permutation_length.
  symmetry. apply filter_app_complement.
Qed.

End Selection.

(** ** The three automation loops as flips of a selected set *)

Section Loops.

Implicit Types (ws : list Worker) (idxs : list nat).

(** [ai_economy.py]: the positions below [jobs_to_automate] are selected;
    the test [worker.employed] changes nothing, since the assignment
    leaves an unemployed worker as it is. *)
Lemma ai_automate_flip_where jobs ws :
  AiEconomy.automate jobs ws = flip_where (λ i, bool_decide (Z.of_nat i < jobs)%Z) ws.
Proof.
  apply imap_ext. intros i w _. simpl.
  destruct (bool_decide _), (employed w) eqn:Hw; simpl; try done.
  by rewrite set_unemployed_id.
Qed.

Lemma setitem_unemployed_Some ws idx :
  (idx < length ws)%nat →
  ∃ w, ws !! idx = Some w ∧
       setitem_unemployed ws idx = Some (<[idx := set_unemployed w]> ws).
Proof.
  intros Hlt. destruct (lookup_lt_is_Some_2 ws idx Hlt) as [w Hw].
  exists w. split; [done|]. unfold setitem_unemployed, Py.getitem.
  by rewrite Hw.
Qed.

(** A subscript out of range raises. *)
Lemma setitem_unemployed_None ws idx :
  (length ws ≤ idx)%nat → setitem_unemployed ws idx = None.
Proof.
  intros Hge. unfold setitem_unemployed, Py.getitem.
  by rewrite lookup_ge_None_2.
Qed.

(** The loop over indices that are all in range does not raise, and flips
    exactly the workers at the listed indices. *)
Lemma automate_indices_flip_where idxs ws :
  Forall (λ j, (j < length ws)%nat) idxs →
  automate_indices idxs ws = Some (flip_where (selected idxs) ws).
Proof.
  revert ws. induction idxs as [|idx idxs IH]; intros ws Hin; simpl.
  - f_equal. apply list_eq. intros j. rewrite lookup_flip_where.
    unfold selected. rewrite bool_decide_eq_false_2 by apply not_elem_of_nil.
    by destruct (ws !! j).
  - apply Forall_cons in Hin as [Hidx Hin].
    destruct (setitem_unemployed_Some ws idx Hidx) as (w & Hw & ->). simpl.
    rewrite IH by (by rewrite length_insert).
    f_equal. apply list_eq. intros j. rewrite !lookup_flip_where.
    unfold selected. destruct (decide (j = idx)) as [->|Hne].
    + rewrite list_lookup_insert_eq by done. rewrite Hw. simpl.
      rewrite (bool_decide_eq_true_2 (idx ∈ idx :: idxs)) by (by left).
      by destruct (bool_decide _).
    + rewrite list_lookup_insert_ne by done.
      destruct (ws !! j) as [w'|]; simpl; [|done].
      destruct (decide (j ∈ idxs)) as [Hj|Hj].
      * rewrite !bool_decide_eq_true_2; [done|by right|done].
      * rewrite !bool_decide_eq_false_2; [done| |done].
        by intros [?|?]%elem_of_cons.
Qed.

Lemma slice_to_sublist {A} (xs : list A) k : Py.slice_to xs k `sublist_of` xs.
Proof. unfold Py.slice_to. apply sublist_take. Qed.

Lemma slice_to_nonneg {A} (xs : list A) k :
  (0 ≤ k)%Z → Py.slice_to xs k = take (Z.to_nat k) xs.
Proof. intros Hk. unfold Py.slice_to. by rewrite decide_False by lia. Qed.

Lemma length_slice_to_nonneg {A} (xs : list A) k :
  (0 ≤ k)%Z → Z.of_nat (length (Py.slice_to xs k)) = Z.min k (Z.of_nat (length xs)).
Proof. intros Hk. rewrite slice_to_nonneg, length_take by done. lia. Qed.

Lemma slice_to_in_range {A} (xs : list A) (Q : A → Prop) k :
  Forall Q xs → Forall Q (Py.slice_to xs k).
Proof. intros HQ. unfold Py.slice_to. by apply Forall_take. Qed.

(** [eco.py]: the selected set is the slice of the employed indices; the
    loop never raises, whatever [jobs_to_automate] is. *)
Lemma eco_automate_flip_where jobs ws :
  Eco.automate jobs ws
  = Some (flip_where (selected (Py.slice_to (employed_indices ws) jobs)) ws).
Proof.
  unfold Eco.automate. apply automate_indices_flip_where.
  apply slice_to_in_range, employed_indices_lt.
Qed.

(** [python/chess.py]: the selected set is the slice of the shuffled
    employed indices. *)
Lemma chess_automate_flip_where `{NumpyRandom G} jobs ws (g : G) :
  Chess.automate jobs ws g
  = Some (flip_where
            (selected (Py.slice_to (random_shuffle (employed_indices ws) g).1 jobs)) ws,
          (random_shuffle (employed_indices ws) g).2).
Proof.
  unfold Chess.automate.
  pose proof (random_shuffle_perm (employed_indices ws) g) as Hperm.
  destruct (random_shuffle (employed_indices ws) g) as [shuffled g1]. simpl in *.
  rewrite automate_indices_flip_where; [done|].
  apply slice_to_in_range. rewrite Hperm. apply employed_indices_lt.
Qed.

(** *** Counting the selected workers *)

Lemma filter_selected_prefix (l1 l2 : list nat) :
  NoDup (l1 ++ l2) → filter (λ j, selected l1 j) (l1 ++ l2) = l1.
Proof.
  intros [Hl1 [Hdisj Hl2]]%NoDup_app. rewrite filter_app.
  rewrite (filter_all _ l1), (filter_none _ l2), app_nil_r; [done| |].
  - intros j Hj Hsel. apply bool_decide_unpack in Hsel. by apply (Hdisj j).
  - intros j Hj. by apply bool_decide_pack.
Qed.

Lemma filter_selected_take k (l : list nat) :
  NoDup l → filter (λ j, selected (take k l) j) l = take k l.
Proof.
  intros Hl.
  pose proof (filter_selected_prefix (take k l) (drop k l)) as Hpre.
  rewrite take_drop in Hpre. by apply Hpre.
Qed.

(** A selection without repetition among the members of [l] selects as
    many members of [l] as it lists. *)
Lemma length_filter_selected (sel l : list nat) :
  NoDup sel → NoDup l → (∀ j, j ∈ sel → j ∈ l) →
  length (filter (λ j, selected sel j) l) = length sel.
Proof.
  intros Hsel Hl Hsub. apply Permutation_length, NoDup_Permutation.
  - by apply NoDup_filter.
  - done.
  - intros j. rewrite list_elem_of_filter. unfold selected. split.
    + intros [Hj _]. by apply bool_decide_unpack in Hj.
    + intros Hj. split; [by apply bool_decide_pack | by apply Hsub].
Qed.

End Loops.

(** ** Worker update and the aggregates *)

Section Updates.

Implicit Types (ws : list Worker).

Lemma chess_Worker_update w : Chess.Worker_update w = Worker_update w.
Proof.
  unfold Chess.Worker_update, Worker_update. f_equal.
  destruct (employed w); [ring | done].
Qed.

Lemma chess_Worker_update_fmap ws : Chess.Worker_update <$> ws = Worker_update <$> ws.
Proof. apply list_fmap_ext. intros _ w _. apply chess_Worker_update. Qed.

Lemma employed_indices_from_update i ws :
  employed_indices_from i (Worker_update <$> ws) = employed_indices_from i ws.
Proof.
  revert i. induction ws as [|w ws IH]; intros i; [done|].
  rewrite fmap_cons. simpl. by rewrite IH.
Qed.

Lemma employed_indices_update ws :
  employed_indices (Worker_update <$> ws) = employed_indices ws.
Proof. apply employed_indices_from_update. Qed.

Lemma employed_count_update ws :
  employed_count (Worker_update <$> ws) = employed_count ws.
Proof. unfold employed_count. by rewrite employed_indices_update. Qed.

Lemma flipped_update ws ws' : flipped (Worker_update <$> ws) ws' = flipped ws ws'.
Proof. unfold flipped. by rewrite employed_indices_update. Qed.

Lemma no_rehiring_update ws ws' :
  no_rehiring (Worker_update <$> ws) ws' → no_rehiring ws ws'.
Proof.
  intros [Hlen Hno]. split; [by rewrite Hlen, length_fmap|].
  intros i w w' Hw Hw' He. apply (Hno i (Worker_update w) w'); [|done..].
  by rewrite list_lookup_fmap, Hw.
Qed.

Lemma wage_update ws : wage <$> (Worker_update <$> ws) = wage <$> ws.
Proof. rewrite <- list_fmap_compose. by apply list_fmap_ext. Qed.

(** With nobody employed, every consumption is zero after the update. *)
Lemma consumption_update_unemployed ws :
  employed_indices ws = [] →
  Forall (λ c, c = 0) (consumption <$> (Worker_update <$> ws)).
Proof.
  unfold employed_indices. generalize 0%nat.
  induction ws as [|w ws IH]; intros i He; [constructor|].
  simpl in He. destruct (employed w) eqn:Hw; [done|].
  rewrite !fmap_cons. constructor; [|by apply (IH (S i))].
  simpl. by rewrite Hw.
Qed.

Lemma revenue_update tc (fs : list NonAIFirm) :
  Forall (λ f, revenue f = GAMMA * tc) (NonAIFirm_update tc <$> fs).
Proof. apply Forall_fmap, Forall_true. done. Qed.

End Updates.

(** ** [ai_economy.py]: the first two steps *)

Section AiEconomyRun.

Local Ltac qc_compute := apply Qc_is_canon; vm_compute; reflexivity.

(** C4.  From the initial state of [ai_economy.py] (1000 workers, all
    employed, every wage 100, rate 0.05), the first [step] has the
    automation firm return [jobs_to_automate = 50] with a raw profit of
    [50 * 50 = 2500]; the aggregate consumption handed to the firm equals
    the initial consumption, so the ratio is 1 and the adjusted profit is
    exactly 2500, which is the cumulative profit after the step; 950
    workers are employed after the step. *)
Theorem C4_first_step_of_ai_economy :
  let e0 := AiEconomy.Economy_init in
  let total := Py.sum (consumption <$> (Worker_update <$> workers e0)) in
  length (workers e0) = 1000%nat ∧
  Forall (λ w, employed w = true ∧ wage w = Py.float_of_int 100) (workers e0) ∧
  material_gain (ai_firm e0) = 0 ∧
  total = initial_consumption e0 ∧
  demand_ratio total (initial_consumption e0) = Some 1 ∧
  raw_profit 50 = 2500%Z ∧
  adjusted_profit 50 1 = Py.float_of_int 2500 ∧
  ∃ e1, AiEconomy.step e0 = Some e1 ∧
    AiEconomy.AIFirm_update (ai_firm e0) (num_employed e0) total
      (initial_consumption e0) = Some (ai_firm e1, 50%Z) ∧
    material_gain (ai_firm e1) = Py.float_of_int 2500 ∧
    num_employed e1 = 950%Z ∧
    employed_count (workers e1) = 950%nat ∧
    length (flipped (workers e0) (workers e1)) = 50%nat.
Proof.
  intros e0 total.
  assert (Htotal : total = initial_consumption e0) by qc_compute.
  assert (Hratio : demand_ratio total (initial_consumption e0) = Some 1).
  { rewrite demand_ratio_pos by (vm_compute; reflexivity). f_equal. qc_compute. }
  assert (Hadj : adjusted_profit 50 1 = Py.float_of_int 2500) by qc_compute.
  split; [vm_compute; reflexivity|].
  split; [apply Forall_replicate; split; [reflexivity | qc_compute]|].
  split; [reflexivity|].
  split; [exact Htotal|].
  split; [exact Hratio|].
  split; [reflexivity|].
  split; [exact Hadj|].
  assert (Hjobs : Py.int (AiEconomy.ALPHA * Py.float_of_int (num_employed e0)) = 50%Z)
    by (vm_compute; reflexivity).
  assert (Hupd : AiEconomy.AIFirm_update (ai_firm e0) (num_employed e0) total
                   (initial_consumption e0)
                 = Some ({| material_gain := material_gain (ai_firm e0) + adjusted_profit 50 1 |},
                         50%Z)).
  { unfold AiEconomy.AIFirm_update. rewrite Hratio, Hjobs. reflexivity. }
  unfold AiEconomy.step. fold total. rewrite Hupd.
  eexists. split; [reflexivity|].
  split; [reflexivity|].
  split; [rewrite Hadj; qc_compute|].
  split; [vm_compute; reflexivity|].
  change (employed_count
            (AiEconomy.automate 50 (Worker_update <$> AiEconomy.workers_init)) = 950%nat
          ∧ length (flipped AiEconomy.workers_init
                      (AiEconomy.automate 50 (Worker_update <$> AiEconomy.workers_init)))
            = 50%nat).
  assert (Hafter : employed_count
                     (AiEconomy.automate 50 (Worker_update <$> AiEconomy.workers_init))
                   = 950%nat) by (vm_compute; reflexivity).
  split; [exact Hafter|].
  rewrite <- flipped_update.
  pose proof (employed_count_flip_where (λ i, bool_decide (Z.of_nat i < 50)%Z)
                (Worker_update <$> AiEconomy.workers_init)) as Hcount.
  rewrite <- ai_automate_flip_where, Hafter in Hcount.
  assert (Hbefore : employed_count (Worker_update <$> AiEconomy.workers_init) = 1000%nat)
    by (vm_compute; reflexivity).
  rewrite Hbefore in Hcount. lia.
Qed.

End AiEconomyRun.

(** ** What one step computes *)

Section StepInversion.

(** [ai_economy.py]: a step never raises. *)
Lemma ai_step_total e : is_Some (AiEconomy.step e).
Proof.
  unfold AiEconomy.step, AiEconomy.AIFirm_update.
  destruct (demand_ratio_total
              (Py.sum (consumption <$> (Worker_update <$> workers e)))
              (initial_consumption e)) as [ratio ->].
  simpl. eauto.
Qed.

Lemma ai_step_inv e e' :
  AiEconomy.step e = Some e' →
  let total := Py.sum (consumption <$> (Worker_update <$> workers e)) in
  let jobs := Py.int (AiEconomy.ALPHA * Py.float_of_int (num_employed e)) in
  workers e' = AiEconomy.automate jobs (Worker_update <$> workers e) ∧
  num_employed e' = count_employed (workers e') ∧
  (∃ ratio, demand_ratio total (initial_consumption e) = Some ratio ∧
     AiEconomy.AIFirm_update (ai_firm e) (num_employed e) total (initial_consumption e)
     = Some (ai_firm e', jobs) ∧
     material_gain (ai_firm e') = material_gain (ai_firm e) + adjusted_profit jobs ratio) ∧
  non_ai_firms e' = NonAIFirm_update total <$> non_ai_firms e ∧
  AiEconomy.Government_update (government e) (num_employed e') (non_ai_firms e')
  = (government e', Q2Qc 0.5 * tax_revenue (government e')) ∧
  total_consumption e' = total + Q2Qc 0.5 * tax_revenue (government e') ∧
  initial_consumption e' = initial_consumption e ∧
  data e' = record (data e) (num_employed e') (total_consumption e')
              (tax_revenue (government e')) (material_gain (ai_firm e'))
              (Py.sum (revenue <$> non_ai_firms e')).
Proof.
  intros Hstep total jobs. revert Hstep.
  unfold AiEconomy.step, AiEconomy.AIFirm_update. fold total jobs.
  destruct (demand_ratio total (initial_consumption e)) as [ratio|] eqn:Hratio;
    simpl; [|done].
  intros [= <-]. simpl. split_and!; try done.
  exists ratio. done.
Qed.

Context {G : Type} `{!NumpyRandom G}.

(** [eco.py]: a step never raises. *)
Lemma eco_step_total e (g : G) : is_Some (Eco.step e g).
Proof.
  unfold Eco.step, Eco.AIFirm_update.
  destruct (random_normal Eco.ALPHA_MEAN Eco.ALPHA_STD g) as [draw g1].
  destruct (demand_ratio_total
              (Py.sum (consumption <$> (Worker_update <$> workers e)))
              (initial_consumption e)) as [ratio ->].
  simpl. rewrite eco_automate_flip_where. simpl. eauto.
Qed.

Lemma eco_step_inv e (g : G) e' g' :
  Eco.step e g = Some (e', g') →
  let total := Py.sum (consumption <$> (Worker_update <$> workers e)) in
  let alpha := Py.max 0 (random_normal Eco.ALPHA_MEAN Eco.ALPHA_STD g).1 in
  let jobs := Py.int (alpha * Py.float_of_int (num_employed e)) in
  g' = (random_normal Eco.ALPHA_MEAN Eco.ALPHA_STD g).2 ∧
  Eco.automate jobs (Worker_update <$> workers e) = Some (workers e') ∧
  num_employed e' = count_employed (workers e') ∧
  (∃ ratio, demand_ratio total (initial_consumption e) = Some ratio ∧
     Eco.AIFirm_update (ai_firm e) (num_employed e) total (initial_consumption e) g
     = Some (ai_firm e', jobs, g') ∧
     material_gain (ai_firm e') = material_gain (ai_firm e) + adjusted_profit jobs ratio) ∧
  non_ai_firms e' = NonAIFirm_update total <$> non_ai_firms e ∧
  Eco.Government_update (government e) (num_employed e') (non_ai_firms e') (workers e')
  = (government e', Q2Qc 0.5 * tax_revenue (government e')) ∧
  total_consumption e' = total + Q2Qc 0.5 * tax_revenue (government e') ∧
  initial_consumption e' = initial_consumption e ∧
  data e' = record (data e) (num_employed e') (total_consumption e')
              (tax_revenue (government e')) (material_gain (ai_firm e'))
              (Py.sum (revenue <$> non_ai_firms e')).
Proof.
  intros Hstep total alpha jobs. revert Hstep.
  unfold Eco.step, Eco.AIFirm_update. subst alpha jobs. fold total.
  destruct (random_normal Eco.ALPHA_MEAN Eco.ALPHA_STD g) as [draw g1]. simpl.
  destruct (demand_ratio total (initial_consumption e)) as [ratio|] eqn:Hratio;
    simpl; [|done].
  destruct (Eco.automate _ _) as [ws2|] eqn:Hauto; simpl; [|done].
  intros [= <- <-]. simpl. split_and!; try done.
  exists ratio. done.
Qed.

(** [python/chess.py]: a step never raises. *)
Lemma chess_step_total e (g : G) : is_Some (Chess.step e g).
Proof.
  unfold Chess.step, Chess.AIFirm_update.
  destruct (random_normal Chess.ALPHA_MEAN Chess.ALPHA_STD g) as [draw g1].
  destruct (demand_ratio_total
              (Py.sum (consumption <$> (Chess.Worker_update <$> Chess.workers e)))
              (Chess.initial_consumption e)) as [ratio ->].
  simpl. rewrite chess_automate_flip_where. simpl. eauto.
Qed.

Lemma chess_step_inv e (g : G) e' g' :
  Chess.step e g = Some (e', g') →
  let ws1 := Chess.Worker_update <$> Chess.workers e in
  let total := Py.sum (consumption <$> ws1) in
  let alpha := Py.max 0 (random_normal Chess.ALPHA_MEAN Chess.ALPHA_STD g).1 in
  let g1 := (random_normal Chess.ALPHA_MEAN Chess.ALPHA_STD g).2 in
  let jobs := Py.int (alpha * Py.float_of_int (Chess.sum_employed ws1)) in
  Chess.automate jobs ws1 g1 = Some (Chess.workers e', g') ∧
  (∃ ratio, demand_ratio total (Chess.initial_consumption e) = Some ratio ∧
     Chess.AIFirm_update (Chess.ai_firm e) (Chess.sum_employed ws1) total
       (Chess.initial_consumption e) g
     = Some (Chess.ai_firm e', jobs, g1) ∧
     material_gain (Chess.ai_firm e')
     = material_gain (Chess.ai_firm e) + adjusted_profit jobs ratio) ∧
  Chess.non_ai_firms e' = NonAIFirm_update total <$> Chess.non_ai_firms e ∧
  Chess.Government_update (Chess.government e) (Chess.workers e') (Chess.non_ai_firms e')
  = (Chess.government e', Q2Qc 0.5 * tax_revenue (Chess.government e')) ∧
  Chess.total_consumption e' = total + Q2Qc 0.5 * tax_revenue (Chess.government e') ∧
  Chess.initial_consumption e' = Chess.initial_consumption e ∧
  Chess.history e'
  = Chess.history e ++ [Chess.snapshot (Chess.workers e') (Chess.ai_firm e')
                          (Chess.government e') (Chess.total_consumption e')].
Proof.
  intros Hstep ws1 total alpha g1 jobs. revert Hstep.
  unfold Chess.step, Chess.AIFirm_update. subst alpha g1 jobs. fold ws1. fold total.
  destruct (random_normal Chess.ALPHA_MEAN Chess.ALPHA_STD g) as [draw g1]. simpl.
  destruct (demand_ratio total (Chess.initial_consumption e)) as [ratio|] eqn:Hratio;
    simpl; [|done].
  destruct (Chess.automate _ _ _) as [[ws2 g2]|] eqn:Hauto; simpl; [|done].
  intros [= <- <-]. simpl. split_and!; try done.
  exists ratio. done.
Qed.

End StepInversion.

(** ** Which workers a step automates *)

Section Automation.

Implicit Types (ws : list Worker) (jobs : Z).

(** [ai_economy.py]: the workers flipped are the employed ones at the
    positions below [jobs_to_automate]; positions held by workers that
    are already unemployed use up the quota. *)
Lemma ai_automate_flipped jobs ws :
  flipped ws (AiEconomy.automate jobs ws)
  = filter (λ i, bool_decide (Z.of_nat i < jobs)%Z) (employed_indices ws).
Proof. rewrite ai_automate_flip_where. apply flipped_flip_where. Qed.

(** [eco.py]: the workers flipped are the first [jobs_to_automate]
    employed workers in population order, hence
    [min(jobs_to_automate, employed)] of them. *)
Lemma eco_automate_first_employed jobs ws :
  (0 ≤ jobs)%Z →
  ∃ ws', Eco.automate jobs ws = Some ws' ∧
    flipped ws ws' = take (Z.to_nat jobs) (employed_indices ws) ∧
    Z.of_nat (length (flipped ws ws')) = Z.min jobs (Z.of_nat (employed_count ws)).
Proof.
  intros Hjobs. eexists. split; [apply eco_automate_flip_where|].
  rewrite flipped_flip_where, slice_to_nonneg by done.
  rewrite filter_selected_take by apply NoDup_employed_indices.
  split; [done|]. rewrite length_take. unfold employed_count. lia.
Qed.

Lemma eco_automate_first_employed_witness :
  ∃ ws', Eco.automate 2 [Worker_init 1; set_unemployed (Worker_init 1);
                         Worker_init 1; Worker_init 1] = Some ws' ∧
    flipped [Worker_init 1; set_unemployed (Worker_init 1);
             Worker_init 1; Worker_init 1] ws' = [0; 2]%nat.
Proof.
  destruct (eco_automate_first_employed 2
              [Worker_init 1; set_unemployed (Worker_init 1);
               Worker_init 1; Worker_init 1]) as (ws' & Hauto & Hflip & _); [lia|].
  exists ws'. split; [exact Hauto | exact Hflip].
Defined.

Lemma NoDup_slice_to (xs : list nat) jobs : NoDup xs → NoDup (Py.slice_to xs jobs).
Proof. intros Hxs. eapply sublist_NoDup; [done | apply slice_to_sublist]. Qed.

Lemma elem_of_slice_to (xs : list nat) jobs j : j ∈ Py.slice_to xs jobs → j ∈ xs.
Proof. intros Hj. eapply elem_of_sublist; [done | apply slice_to_sublist]. Qed.

Lemma length_slice_to_le {A} (xs : list A) jobs :
  (length (Py.slice_to xs jobs) ≤ length xs)%nat.
Proof. unfold Py.slice_to. rewrite length_take. lia. Qed.

Lemma slice_to_all {A} (xs : list A) jobs :
  (Z.of_nat (length xs) ≤ jobs)%Z → Py.slice_to xs jobs = xs.
Proof.
  intros Hjobs. rewrite slice_to_nonneg by lia. apply take_ge. lia.
Qed.

(** A selection among the employed indices, without repetition: as many
    workers are flipped as are selected, and the employed count drops by
    that number. *)
Lemma flip_selected_count sel ws :
  NoDup sel → (∀ j, j ∈ sel → j ∈ employed_indices ws) →
  length (flipped ws (flip_where (selected sel) ws)) = length sel ∧
  employed_count ws = (length sel + employed_count (flip_where (selected sel) ws))%nat.
Proof.
  intros Hsel Hsub.
  assert (Hlen : length (flipped ws (flip_where (selected sel) ws)) = length sel).
  { rewrite flipped_flip_where.
    apply length_filter_selected; [done | apply NoDup_employed_indices | done]. }
  split; [done|]. rewrite <- Hlen. apply employed_count_flip_where.
Qed.

End Automation.

(** ** Claims on the selection of workers *)

Section SelectionClaims.

(** C1 (evaluation of [ai_economy.py] where it departs from the claim).
    After the first step the workers at positions 0..49 are unemployed
    and 950 workers are employed.  In the second step the firm returns
    [jobs_to_automate = 47], but the loop only looks at positions 0..46,
    whose workers are already unemployed: no worker is flipped and 950
    workers stay employed, where the first 47 employed workers were to be
    flipped. *)
Theorem C1_ai_economy_second_step_flips_nothing :
  ∃ e1 e2 f2,
    AiEconomy.step AiEconomy.Economy_init = Some e1 ∧
    AiEconomy.step e1 = Some e2 ∧
    employed_count (workers e1) = 950%nat ∧
    AiEconomy.AIFirm_update (ai_firm e1) (num_employed e1)
      (Py.sum (consumption <$> (Worker_update <$> workers e1)))
      (initial_consumption e1) = Some (f2, 47%Z) ∧
    flipped (workers e1) (workers e2) = [] ∧
    employed_count (workers e2) = 950%nat ∧
    num_employed e2 = 950%Z.
Proof.
  destruct (ai_step_total AiEconomy.Economy_init) as [e1 H1].
  destruct (ai_step_total e1) as [e2 H2].
  destruct (ai_step_inv _ _ H1) as (Hws1 & Hn1 & _).
  destruct (ai_step_inv _ _ H2) as (Hws2 & Hn2 & (ratio & _ & Hupd & _) & _).
  assert (Hjobs1 : Py.int (AiEconomy.ALPHA
                           * Py.float_of_int (num_employed AiEconomy.Economy_init)) = 50%Z)
    by (vm_compute; reflexivity).
  rewrite Hjobs1 in Hws1.
  change (workers AiEconomy.Economy_init) with AiEconomy.workers_init in Hws1.
  assert (Hidx1 : employed_indices (workers e1) = seq 50 950).
  { rewrite Hws1, ai_automate_flip_where, employed_indices_flip_where,
      employed_indices_update.
    vm_compute. reflexivity. }
  assert (Hcount1 : employed_count (workers e1) = 950%nat).
  { unfold employed_count. rewrite Hidx1. apply length_seq. }
  assert (Hjobs2 : Py.int (AiEconomy.ALPHA * Py.float_of_int (num_employed e1)) = 47%Z).
  { rewrite Hn1, count_employed_spec, Hcount1. vm_compute. reflexivity. }
  rewrite Hjobs2 in Hws2, Hupd.
  assert (Hflip : flipped (workers e1) (workers e2) = []).
  { rewrite Hws2, <- flipped_update, ai_automate_flipped, employed_indices_update, Hidx1.
    vm_compute. reflexivity. }
  assert (Hcount2 : employed_count (workers e2) = 950%nat).
  { pose proof (employed_count_flip_where (λ i, bool_decide (Z.of_nat i < 47)%Z)
                  (Worker_update <$> workers e1)) as Hc.
    rewrite <- ai_automate_flip_where, <- Hws2, flipped_update, Hflip,
      employed_count_update, Hcount1 in Hc.
    simpl in Hc. lia. }
  exists e1, e2, (ai_firm e2). split_and!; try done.
  rewrite Hn2, count_employed_spec, Hcount2. done.
Qed.

Context {G : Type} `{!NumpyRandom G}.

(** C2.  In the three scripts a step never raises, never leaves more
    workers employed than it found, and never turns an unemployed worker
    into an employed one. *)
Theorem C2_employment_never_increases :
  (∀ e, ∃ e', AiEconomy.step e = Some e' ∧
      (employed_count (workers e') ≤ employed_count (workers e))%nat ∧
      no_rehiring (workers e) (workers e')) ∧
  (∀ e (g : G), ∃ e' g', Eco.step e g = Some (e', g') ∧
      (employed_count (workers e') ≤ employed_count (workers e))%nat ∧
      no_rehiring (workers e) (workers e')) ∧
  (∀ e (g : G), ∃ e' g', Chess.step e g = Some (e', g') ∧
      (employed_count (Chess.workers e') ≤ employed_count (Chess.workers e))%nat ∧
      no_rehiring (Chess.workers e) (Chess.workers e')).
Proof.
  split_and!.
  - intros e. destruct (ai_step_total e) as [e' Hstep]. exists e'.
    destruct (ai_step_inv _ _ Hstep) as (Hws & _).
    rewrite Hws, ai_automate_flip_where. split_and!; [done| |].
    + rewrite <- (employed_count_update (workers e)).
      apply employed_count_flip_where_le.
    + apply no_rehiring_update, no_rehiring_flip_where.
  - intros e g. destruct (eco_step_total e g) as [[e' g'] Hstep]. exists e', g'.
    destruct (eco_step_inv _ _ _ _ Hstep) as (_ & Hws & _).
    rewrite eco_automate_flip_where in Hws. injection Hws as Hws.
    rewrite <- Hws. split_and!; [done| |].
    + rewrite <- (employed_count_update (workers e)).
      apply employed_count_flip_where_le.
    + apply no_rehiring_update, no_rehiring_flip_where.
  - intros e g. destruct (chess_step_total e g) as [[e' g'] Hstep]. exists e', g'.
    destruct (chess_step_inv _ _ _ _ Hstep) as (Hws & _).
    rewrite chess_automate_flip_where in Hws. injection Hws as Hws _.
    rewrite <- Hws, chess_Worker_update_fmap. split_and!; [done| |].
    + rewrite <- (employed_count_update (Chess.workers e)).
      apply employed_count_flip_where_le.
    + apply no_rehiring_update, no_rehiring_flip_where.
Qed.

(** C8.  Whatever [jobs_to_automate] is, also above the number of
    employed workers, the three automation loops do not raise; the
    workers they flip are at most the employed ones, and the employed
    count after the loop is the count before minus the flipped ones, so
    it is never negative.  In [eco.py] and [python/chess.py] as many
    workers are flipped as indices are selected, and everybody is
    flipped once [jobs_to_automate] reaches the employed count. *)
Theorem C8_never_more_than_employed :
  (∀ jobs ws,
      let ws' := AiEconomy.automate jobs ws in
      (length (flipped ws ws') ≤ employed_count ws)%nat ∧
      employed_count ws = (length (flipped ws ws') + employed_count ws')%nat ∧
      (0 ≤ count_employed ws')%Z) ∧
  (∀ jobs ws, ∃ ws',
      Eco.automate jobs ws = Some ws' ∧
      length (flipped ws ws') = length (Py.slice_to (employed_indices ws) jobs) ∧
      (length (flipped ws ws') ≤ employed_count ws)%nat ∧
      employed_count ws = (length (flipped ws ws') + employed_count ws')%nat ∧
      (0 ≤ count_employed ws')%Z ∧
      ((Z.of_nat (employed_count ws) ≤ jobs)%Z → employed_count ws' = 0%nat)) ∧
  (∀ jobs ws (g : G), ∃ ws' g',
      Chess.automate jobs ws g = Some (ws', g') ∧
      length (flipped ws ws')
      = length (Py.slice_to (random_shuffle (employed_indices ws) g).1 jobs) ∧
      (length (flipped ws ws') ≤ employed_count ws)%nat ∧
      employed_count ws = (length (flipped ws ws') + employed_count ws')%nat ∧
      (0 ≤ count_employed ws')%Z ∧
      ((Z.of_nat (employed_count ws) ≤ jobs)%Z → employed_count ws' = 0%nat)).
Proof.
  split_and!.
  - intros jobs ws ws'. subst ws'. rewrite ai_automate_flip_where.
    pose proof (employed_count_flip_where
                  (λ i, bool_decide (Z.of_nat i < jobs)%Z) ws) as Hc.
    split_and!; [lia | done | apply count_employed_nonneg].
  - intros jobs ws. eexists. split; [apply eco_automate_flip_where|].
    destruct (flip_selected_count (Py.slice_to (employed_indices ws) jobs) ws)
      as [Hlen Hc].
    { apply NoDup_slice_to, NoDup_employed_indices. }
    { intros j. apply elem_of_slice_to. }
    rewrite Hlen. split_and!; [done| lia | done | apply count_employed_nonneg |].
    intros Hall. rewrite slice_to_all in Hc |- * by done.
    unfold employed_count in Hc at 1. lia.
  - intros jobs ws g. eexists _, _. split; [apply chess_automate_flip_where|].
    pose proof (random_shuffle_perm (employed_indices ws) g) as Hperm.
    destruct (flip_selected_count
                (Py.slice_to (random_shuffle (employed_indices ws) g).1 jobs) ws)
      as [Hlen Hc].
    { apply NoDup_slice_to. rewrite Hperm. apply NoDup_employed_indices. }
    { intros j Hj%elem_of_slice_to. by rewrite Hperm in Hj. }
    rewrite Hlen. split_and!; [done| lia | done | apply count_employed_nonneg |].
    intros Hall.
    assert (Hlenp : length (random_shuffle (employed_indices ws) g).1
                    = employed_count ws) by (by rewrite Hperm).
    rewrite slice_to_all in Hc |- * by (by rewrite Hlenp).
    rewrite Hlenp in Hc. lia.
Qed.

End SelectionClaims.

(** ** The tape generator is a generator *)

Section TapeGenerator.

Lemma tape_normal_n_length loc scale n t :
  length (Tape.normal_n loc scale n t).1 = n.
Proof.
  revert t. induction n as [|n IH]; intros t; simpl; [done|].
  destruct (Tape.normal loc scale t) as [x t1].
  specialize (IH t1). destruct (Tape.normal_n loc scale n t1) as [xs t2].
  simpl in *. by rewrite IH.
Qed.

Lemma tape_shuffle_perm xs t : (Tape.shuffle xs t).1 ≡ₚ xs.
Proof.
  unfold Tape.shuffle. destruct (Tape.next t) as [z t']. simpl.
  destruct (decide (z < 0)); [apply reverse_Permutation | done].
Qed.

#[export] Instance tape_random : NumpyRandom (list Qc) := {
  random_normal := Tape.normal;
  random_normal_n := Tape.normal_n;
  random_shuffle := Tape.shuffle;
  random_normal_n_length := tape_normal_n_length;
  random_shuffle_perm := tape_shuffle_perm
}.

End TapeGenerator.

(** ** The automation firm *)

Section AutomationFirm.

Context {G : Type} `{!NumpyRandom G}.



End AutomationFirm.



(** ** Government and demand firms *)

Section Government.

Implicit Types (ws : list Worker) (fs : list NonAIFirm).

Lemma float_of_int_add a b :
  Py.float_of_int (a + b) = Py.float_of_int a + Py.float_of_int b.
Proof.
  unfold Py.float_of_int at 1. unfold Qcplus. apply Q2Qc_eq_iff.
  rewrite !this_float_of_int, inject_Z_plus. reflexivity.
Qed.

(** With one wage [W] for everybody, the product of [ai_economy.py] is the
    sum of the wages of the employed workers. *)
Lemma uniform_employed_wages (W : Z) ws :
  Forall (λ w, wage w = Py.float_of_int W) ws →
  employed_wages ws = Py.float_of_int (count_employed ws * W).
Proof.
  intros Hw. unfold employed_wages, count_employed.
  assert (Hf : Forall (λ w, wage w = Py.float_of_int W) (filter (λ w, employed w) ws)).
  { apply Forall_forall. intros w [_ Hin]%list_elem_of_filter.
    by apply (proj1 (Forall_forall _ _) Hw). }
  induction Hf as [|w l Hwage _ IH]; [done|].
  rewrite !fmap_cons, sum_cons, isum_cons, IH, Hwage.
  rewrite <- float_of_int_add. f_equal. lia.
Qed.

Lemma wage_ai_automate jobs ws : wage <$> AiEconomy.automate jobs ws = wage <$> ws.
Proof. rewrite ai_automate_flip_where. apply wage_flip_where. Qed.

Lemma Forall_wage_fmap (P : Qc → Prop) ws :
  Forall (λ w, P (wage w)) ws ↔ Forall P (wage <$> ws).
Proof. by rewrite Forall_fmap. Qed.

(** C6.  After a step of each script, the tax revenue is [TAU] times the
    wages of the workers employed after the automation plus the revenues of
    the demand firms, the stimulus returned by [Government.update] is half
    the tax revenue, and it is what the step adds to the consumption.  With
    an empty list of firms the tax revenue is [TAU] times the wages of the
    employed workers.  In [ai_economy.py] the wages are computed as
    [num_employed * INITIAL_WAGE], which is their sum since every worker is
    created with the wage [INITIAL_WAGE]. *)
Theorem C6_tax_and_stimulus {G : Type} `{!NumpyRandom G} (e_ai : Economy) :
  Forall (λ w, wage w = Py.float_of_int AiEconomy.INITIAL_WAGE) (workers e_ai) →
  (∃ e', AiEconomy.step e_ai = Some e' ∧
     let upd := AiEconomy.Government_update (government e_ai) (num_employed e')
                  (non_ai_firms e') in
     upd.1 = government e' ∧
     tax_revenue (government e')
     = TAU * (employed_wages (workers e') + firm_revenues (non_ai_firms e')) ∧
     upd.2 = Q2Qc 0.5 * tax_revenue (government e') ∧
     total_consumption e' = pre_stimulus_total (workers e_ai) + upd.2) ∧
  (∀ gov,
     let upd := AiEconomy.Government_update gov (count_employed (workers e_ai)) [] in
     tax_revenue upd.1 = TAU * employed_wages (workers e_ai) ∧
     upd.2 = Q2Qc 0.5 * (TAU * employed_wages (workers e_ai))) ∧
  (∀ e (g : G), ∃ e' g', Eco.step e g = Some (e', g') ∧
     let upd := Eco.Government_update (government e) (num_employed e')
                  (non_ai_firms e') (workers e') in
     upd.1 = government e' ∧
     tax_revenue (government e')
     = TAU * (employed_wages (workers e') + firm_revenues (non_ai_firms e')) ∧
     upd.2 = Q2Qc 0.5 * tax_revenue (government e') ∧
     total_consumption e' = pre_stimulus_total (workers e) + upd.2) ∧
  (∀ gov n ws,
     let upd := Eco.Government_update gov n [] ws in
     tax_revenue upd.1 = TAU * employed_wages ws ∧
     upd.2 = Q2Qc 0.5 * (TAU * employed_wages ws)) ∧
  (∀ e (g : G), ∃ e' g', Chess.step e g = Some (e', g') ∧
     let upd := Chess.Government_update (Chess.government e) (Chess.workers e')
                  (Chess.non_ai_firms e') in
     upd.1 = Chess.government e' ∧
     tax_revenue (Chess.government e')
     = TAU * (employed_wages (Chess.workers e') + firm_revenues (Chess.non_ai_firms e')) ∧
     upd.2 = Q2Qc 0.5 * tax_revenue (Chess.government e') ∧
     Chess.total_consumption e'
     = Py.sum (consumption <$> (Chess.Worker_update <$> Chess.workers e)) + upd.2) ∧
  (∀ gov ws,
     let upd := Chess.Government_update gov ws [] in
     tax_revenue upd.1 = TAU * employed_wages ws ∧
     upd.2 = Q2Qc 0.5 * (TAU * employed_wages ws)).
Proof.
  intros Hwage. split_and!.
  - destruct (ai_step_total e_ai) as [e' Hstep]. exists e'. split; [done|].
    destruct (ai_step_inv _ _ Hstep) as (Hws & Hn & _ & _ & Hgov & Htot & _).
    rewrite Hgov. simpl. split_and!; [done| |done|done].
    apply (f_equal fst) in Hgov. simpl in Hgov. rewrite <- Hgov at 1. simpl.
    unfold firm_revenues. do 2 f_equal.
    rewrite Hn. symmetry. apply uniform_employed_wages.
    apply (Forall_wage_fmap (λ x, x = Py.float_of_int AiEconomy.INITIAL_WAGE)).
    rewrite Hws, wage_ai_automate, wage_update.
    by apply (Forall_wage_fmap (λ x, x = Py.float_of_int AiEconomy.INITIAL_WAGE)).
  - intros gov. simpl.
    rewrite <- (uniform_employed_wages _ _ Hwage), sum_nil.
    split; f_equal; ring.
  - intros e g. destruct (eco_step_total e g) as [[e' g'] Hstep]. exists e', g'.
    split; [done|].
    destruct (eco_step_inv _ _ _ _ Hstep) as (_ & _ & _ & _ & _ & Hgov & Htot & _).
    rewrite Hgov. simpl. split_and!; [done| |done|done].
    apply (f_equal fst) in Hgov. simpl in Hgov. by rewrite <- Hgov at 1.
  - intros gov n ws. simpl. rewrite sum_nil. fold (employed_wages ws).
    split; f_equal; ring.
  - intros e g. destruct (chess_step_total e g) as [[e' g'] Hstep]. exists e', g'.
    split; [done|].
    destruct (chess_step_inv _ _ _ _ Hstep) as (_ & _ & _ & Hgov & Htot & _).
    rewrite Hgov. simpl. split_and!; [done| |done|done].
    apply (f_equal fst) in Hgov. simpl in Hgov. by rewrite <- Hgov at 1.
  - intros gov ws. simpl. rewrite sum_nil. fold (employed_wages ws).
    split; f_equal; ring.
Qed.

End Government.

Lemma C6_tax_and_stimulus_witness :
  Forall (λ w, wage w = Py.float_of_int AiEconomy.INITIAL_WAGE)
    (workers AiEconomy.Economy_init) ∧
  ∃ e', AiEconomy.step AiEconomy.Economy_init = Some e' ∧
    tax_revenue (government e')
    = TAU * (employed_wages (workers e') + firm_revenues (non_ai_firms e')).
Proof.
  assert (H : Forall (λ w, wage w = Py.float_of_int AiEconomy.INITIAL_WAGE)
                (workers AiEconomy.Economy_init)).
  { apply Forall_replicate. reflexivity. }
  split; [exact H|].
  destruct (C6_tax_and_stimulus (G := list Qc) AiEconomy.Economy_init H)
    as ((e' & Hstep & _ & Htax & _) & _).
  exists e'. split; [exact Hstep | exact Htax].
Defined.

(** ** The stimulus reaches the aggregate only *)

Section Stimulus.

Context {G : Type} `{!NumpyRandom G}.

Lemma consumption_chess_update (ws : list Worker) :
  consumption <$> (Chess.Worker_update <$> ws) = consumption <$> (Worker_update <$> ws).
Proof. by rewrite chess_Worker_update_fmap. Qed.


End Stimulus.

(** ** Total unemployment *)

Section TotalUnemployment.

Implicit Types (ws : list Worker) (fs : list NonAIFirm).

Lemma idle_filter ws :
  employed_indices ws = [] → filter (λ w, employed w) ws = [].
Proof.
  intros Hidle. apply nil_length_inv. unfold employed_indices in Hidle.
  by rewrite <- (length_employed_indices_from 0), Hidle.
Qed.

Lemma idle_count_employed ws : employed_indices ws = [] → count_employed ws = 0%Z.
Proof. intros Hidle. rewrite count_employed_spec. unfold employed_count. by rewrite Hidle. Qed.

Lemma idle_sum_employed ws : employed_indices ws = [] → Chess.sum_employed ws = 0%Z.
Proof. intros Hidle. rewrite sum_employed_spec. unfold employed_count. by rewrite Hidle. Qed.

Lemma idle_employed_wages ws : employed_indices ws = [] → employed_wages ws = 0.
Proof. intros Hidle. unfold employed_wages. by rewrite idle_filter. Qed.

Lemma idle_employed ws j w :
  employed_indices ws = [] → ws !! j = Some w → employed w = false.
Proof.
  intros Hidle Hw. destruct (employed w) eqn:He; [|done].
  assert (Hj : j ∈ employed_indices ws) by (apply elem_of_employed_indices; eauto).
  rewrite Hidle in Hj. by apply elem_of_nil in Hj.
Qed.

(** With nobody employed, no selection flips anybody. *)
Lemma idle_flip_where P ws : employed_indices ws = [] → flip_where P ws = ws.
Proof.
  intros Hidle. apply list_eq. intros j. rewrite lookup_flip_where.
  destruct (ws !! j) as [w|] eqn:Hw; simpl; [|done].
  destruct (P j); [|done]. f_equal. apply set_unemployed_id.
  by apply (idle_employed ws j).
Qed.

Lemma idle_update_settled ws :
  employed_indices ws = [] → Forall (λ w, consumption w = 0) ws → Worker_update <$> ws = ws.
Proof.
  intros Hidle Hcons. apply list_eq. intros j. rewrite list_lookup_fmap.
  destruct (ws !! j) as [w|] eqn:Hw; simpl; [|done]. f_equal.
  pose proof (idle_employed ws j w Hidle Hw) as He.
  pose proof (proj1 (Forall_lookup _ _) Hcons j w Hw) as Hc. simpl in Hc.
  destruct w as [em wg co]. simpl in *. subst. done.
Qed.

Lemma idle_update_consumption ws :
  employed_indices ws = [] → Forall (λ w, consumption w = 0) (Worker_update <$> ws).
Proof.
  intros Hidle. apply Forall_fmap. apply Forall_lookup. intros j w Hw. simpl.
  by rewrite (idle_employed ws j w Hidle Hw).
Qed.

Lemma idle_pre_stimulus_total ws : employed_indices ws = [] → pre_stimulus_total ws = 0.
Proof.
  intros Hidle. apply sum_zero. by apply consumption_update_unemployed.
Qed.

Lemma firms_reset fs : Forall (λ f, revenue f = 0) (NonAIFirm_update 0 <$> fs).
Proof.
  apply Forall_fmap, Forall_true. intros f. simpl. apply Qcmult_0_r.
Qed.

Lemma firms_reset_settled fs :
  Forall (λ f, revenue f = 0) fs → NonAIFirm_update 0 <$> fs = fs.
Proof.
  induction 1 as [|[r] fs Hr _ IH]; [done|].
  rewrite fmap_cons, IH. f_equal. unfold NonAIFirm_update. simpl in Hr.
  by rewrite Qcmult_0_r, Hr.
Qed.

Lemma firm_revenues_zero fs : Forall (λ f, revenue f = 0) fs → firm_revenues fs = 0.
Proof. intros Hfs. apply sum_zero. by apply Forall_fmap. Qed.

Lemma gain_unchanged (f : AIFirm) ratio :
  {| material_gain := material_gain f + adjusted_profit 0 ratio |} = f.
Proof. destruct f as [gain]. simpl. rewrite adjusted_profit_0. f_equal. ring. Qed.

Lemma tax_zero : TAU * (0 + 0) = 0.
Proof. ring. Qed.

Lemma stimulus_zero : 0 + Q2Qc 0.5 * 0 = 0.
Proof. ring. Qed.

(** [ai_economy.py]: a step from a state without employed workers. *)
Lemma ai_idle_step e :
  employed_indices (workers e) = [] → consistent e →
  ∃ e', AiEconomy.step e = Some e' ∧
    workers e' = Worker_update <$> workers e ∧
    ai_firm e' = ai_firm e ∧
    non_ai_firms e' = NonAIFirm_update 0 <$> non_ai_firms e ∧
    government e' = {| tax_revenue := 0 |} ∧
    num_employed e' = 0%Z ∧
    total_consumption e' = 0 ∧
    data e' = record (data e) 0 0 0 (material_gain (ai_firm e)) 0.
Proof.
  intros Hidle Hcons. destruct (ai_step_total e) as [e' Hstep]. exists e'.
  split; [done|].
  destruct (ai_step_inv _ _ Hstep)
    as (Hws & Hn & (ratio & _ & _ & Hgain) & Hfirms & Hgov & Htot & _ & Hdata).
  fold (pre_stimulus_total (workers e)) in Hfirms, Htot.
  rewrite idle_pre_stimulus_total in Hfirms, Htot by done.
  unfold consistent in Hcons. rewrite Hcons, idle_count_employed in Hws, Hgain by done.
  rewrite jobs_0 in Hws, Hgain.
  rewrite ai_automate_flip_where, idle_flip_where in Hws
    by (by rewrite employed_indices_update).
  assert (Hn0 : num_employed e' = 0%Z).
  { rewrite Hn, Hws. apply idle_count_employed. by rewrite employed_indices_update. }
  assert (Hf : ai_firm e' = ai_firm e).
  { rewrite <- (gain_unchanged (ai_firm e) ratio). destruct (ai_firm e'). simpl in *.
    by rewrite Hgain. }
  assert (Hg : government e' = {| tax_revenue := 0 |}).
  { apply (f_equal fst) in Hgov. simpl in Hgov. rewrite <- Hgov, Hn0, Hfirms.
    fold (firm_revenues (NonAIFirm_update 0 <$> non_ai_firms e)).
    rewrite firm_revenues_zero by apply firms_reset.
    f_equal. apply tax_zero. }
  assert (Ht : total_consumption e' = 0).
  { rewrite Htot, Hg. simpl. apply stimulus_zero. }
  split_and!; try done.
  rewrite Hdata, Hn0, Ht, Hg, Hf, Hfirms. simpl.
  fold (firm_revenues (NonAIFirm_update 0 <$> non_ai_firms e)).
  by rewrite firm_revenues_zero by apply firms_reset.
Qed.

Context {G : Type} `{!NumpyRandom G}.

(** [eco.py]: a step from a state without employed workers. *)
Lemma eco_idle_step e (g : G) :
  employed_indices (workers e) = [] → consistent e →
  ∃ e' g', Eco.step e g = Some (e', g') ∧
    workers e' = Worker_update <$> workers e ∧
    ai_firm e' = ai_firm e ∧
    non_ai_firms e' = NonAIFirm_update 0 <$> non_ai_firms e ∧
    government e' = {| tax_revenue := 0 |} ∧
    num_employed e' = 0%Z ∧
    total_consumption e' = 0 ∧
    data e' = record (data e) 0 0 0 (material_gain (ai_firm e)) 0.
Proof.
  intros Hidle Hcons. destruct (eco_step_total e g) as [[e' g'] Hstep]. exists e', g'.
  split; [done|].
  destruct (eco_step_inv _ _ _ _ Hstep)
    as (_ & Hws & Hn & (ratio & _ & _ & Hgain) & Hfirms & Hgov & Htot & _ & Hdata).
  fold (pre_stimulus_total (workers e)) in Hfirms, Htot.
  rewrite idle_pre_stimulus_total in Hfirms, Htot by done.
  unfold consistent in Hcons. rewrite Hcons, idle_count_employed in Hws, Hgain by done.
  rewrite jobs_0 in Hws, Hgain.
  rewrite eco_automate_flip_where, idle_flip_where in Hws
    by (by rewrite employed_indices_update).
  injection Hws as Hws. symmetry in Hws.
  assert (Hidle' : employed_indices (workers e') = [])
    by (by rewrite Hws, employed_indices_update).
  assert (Hn0 : num_employed e' = 0%Z) by (by rewrite Hn, idle_count_employed).
  assert (Hf : ai_firm e' = ai_firm e).
  { rewrite <- (gain_unchanged (ai_firm e) ratio). destruct (ai_firm e'). simpl in *.
    by rewrite Hgain. }
  assert (Hg : government e' = {| tax_revenue := 0 |}).
  { apply (f_equal fst) in Hgov. simpl in Hgov. rewrite <- Hgov, Hfirms.
    fold (employed_wages (workers e')).
    fold (firm_revenues (NonAIFirm_update 0 <$> non_ai_firms e)).
    rewrite idle_employed_wages, firm_revenues_zero by (done || apply firms_reset).
    f_equal. apply tax_zero. }
  assert (Ht : total_consumption e' = 0).
  { rewrite Htot, Hg. simpl. apply stimulus_zero. }
  split_and!; try done.
  rewrite Hdata, Hn0, Ht, Hg, Hf, Hfirms. simpl.
  fold (firm_revenues (NonAIFirm_update 0 <$> non_ai_firms e)).
  by rewrite firm_revenues_zero by apply firms_reset.
Qed.

(** [python/chess.py]: a step from a state without employed workers. *)
Lemma chess_idle_step e (g : G) :
  employed_indices (Chess.workers e) = [] →
  ∃ e' g', Chess.step e g = Some (e', g') ∧
    Chess.workers e' = Worker_update <$> Chess.workers e ∧
    Chess.ai_firm e' = Chess.ai_firm e ∧
    Chess.non_ai_firms e' = NonAIFirm_update 0 <$> Chess.non_ai_firms e ∧
    Chess.government e' = {| tax_revenue := 0 |} ∧
    Chess.total_consumption e' = 0 ∧
    Chess.history e'
    = Chess.history e
      ++ [{| Chess.h_employment := employed <$> Chess.workers e;
             Chess.h_wages := (λ _, 0) <$> Chess.workers e;
             Chess.h_ai_profit := material_gain (Chess.ai_firm e);
             Chess.h_tax_revenue := 0;
             Chess.h_consumption := 0 |}].
Proof.
  intros Hidle. destruct (chess_step_total e g) as [[e' g'] Hstep]. exists e', g'.
  split; [done|].
  destruct (chess_step_inv _ _ _ _ Hstep)
    as (Hws & (ratio & _ & _ & Hgain) & Hfirms & Hgov & Htot & _ & Hhist).
  rewrite chess_Worker_update_fmap in Hws, Hgain, Hfirms, Htot.
  fold (pre_stimulus_total (Chess.workers e)) in Hfirms, Htot.
  rewrite idle_pre_stimulus_total in Hfirms, Htot by done.
  rewrite idle_sum_employed in Hws, Hgain by (by rewrite employed_indices_update).
  rewrite jobs_0 in Hws, Hgain.
  rewrite chess_automate_flip_where, idle_flip_where in Hws
    by (by rewrite employed_indices_update).
  injection Hws as Hws _. symmetry in Hws.
  assert (Hidle' : employed_indices (Chess.workers e') = [])
    by (by rewrite Hws, employed_indices_update).
  assert (Hf : Chess.ai_firm e' = Chess.ai_firm e).
  { rewrite <- (gain_unchanged (Chess.ai_firm e) ratio).
    destruct (Chess.ai_firm e'). simpl in *. by rewrite Hgain. }
  assert (Hg : Chess.government e' = {| tax_revenue := 0 |}).
  { apply (f_equal fst) in Hgov. simpl in Hgov. rewrite <- Hgov, Hfirms.
    fold (employed_wages (Chess.workers e')).
    fold (firm_revenues (NonAIFirm_update 0 <$> Chess.non_ai_firms e)).
    rewrite idle_employed_wages, firm_revenues_zero by (done || apply firms_reset).
    f_equal. apply tax_zero. }
  assert (Ht : Chess.total_consumption e' = 0).
  { rewrite Htot, Hg. simpl. apply stimulus_zero. }
  split_and!; try done.
  rewrite Hhist, Ht, Hg, Hf. unfold Chess.snapshot. simpl. do 2 f_equal.
  rewrite Hws. f_equal.
  - rewrite <- list_fmap_compose. by apply list_fmap_ext.
  - rewrite <- list_fmap_compose. apply list_fmap_ext. intros j w Hw. simpl.
    by rewrite (idle_employed _ _ _ Hidle Hw).
Qed.

End TotalUnemployment.

(** ** Total unemployment is absorbing once the derived fields are reset *)

Section Absorbing.

Implicit Types (ws : list Worker) (fs : list NonAIFirm).

Lemma employed_fmap_update ws : employed <$> (Worker_update <$> ws) = employed <$> ws.
Proof. rewrite <- list_fmap_compose. by apply list_fmap_ext. Qed.

Lemma idle_employed_fmap ws :
  employed_indices ws = [] → employed <$> ws = (λ _, false) <$> ws.
Proof.
  intros Hidle. apply list_fmap_ext. intros j w Hw. by apply (idle_employed ws j).
Qed.

Lemma idle_reset_intro e e' :
  employed_indices (workers e) = [] →
  workers e' = Worker_update <$> workers e →
  ai_firm e' = ai_firm e →
  non_ai_firms e' = NonAIFirm_update 0 <$> non_ai_firms e →
  government e' = {| tax_revenue := 0 |} →
  num_employed e' = 0%Z →
  total_consumption e' = 0 →
  data e' = record (data e) 0 0 0 (material_gain (ai_firm e)) 0 →
  idle_reset e e' ∧ employed_indices (workers e') = [] ∧ consistent e' ∧
  (settled (workers e) (non_ai_firms e) (government e) → agents_unchanged e e').
Proof.
  intros Hidle Hws Hf Hfs Hg Hn Ht Hd.
  assert (Hidle' : employed_indices (workers e') = [])
    by (by rewrite Hws, employed_indices_update).
  split_and!.
  - unfold idle_reset, settled. rewrite Hws, Hfs, Hg.
    split_and!; try done.
    + apply wage_update.
    + apply employed_fmap_update.
    + by apply idle_update_consumption.
    + apply firms_reset.
    + apply length_fmap.
  - done.
  - unfold consistent. by rewrite Hn, idle_count_employed.
  - intros (Hc & Hr & Htax). unfold agents_unchanged.
    rewrite Hws, Hfs, Hg, idle_update_settled, firms_reset_settled by done.
    split_and!; try done. destruct (government e). simpl in Htax. by rewrite Htax.
Qed.

Lemma chess_idle_reset_intro e e' :
  employed_indices (Chess.workers e) = [] →
  Chess.workers e' = Worker_update <$> Chess.workers e →
  Chess.ai_firm e' = Chess.ai_firm e →
  Chess.non_ai_firms e' = NonAIFirm_update 0 <$> Chess.non_ai_firms e →
  Chess.government e' = {| tax_revenue := 0 |} →
  Chess.total_consumption e' = 0 →
  Chess.history e'
  = Chess.history e
    ++ [{| Chess.h_employment := employed <$> Chess.workers e;
           Chess.h_wages := (λ _, 0) <$> Chess.workers e;
           Chess.h_ai_profit := material_gain (Chess.ai_firm e);
           Chess.h_tax_revenue := 0;
           Chess.h_consumption := 0 |}] →
  chess_idle_reset e e' ∧ employed_indices (Chess.workers e') = [] ∧
  (settled (Chess.workers e) (Chess.non_ai_firms e) (Chess.government e) →
   chess_agents_unchanged e e').
Proof.
  intros Hidle Hws Hf Hfs Hg Ht Hh.
  assert (Hidle' : employed_indices (Chess.workers e') = [])
    by (by rewrite Hws, employed_indices_update).
  split_and!.
  - unfold chess_idle_reset, settled. rewrite Hws, Hfs, Hg, Hh.
    split_and!; try done.
    + apply wage_update.
    + apply employed_fmap_update.
    + by apply idle_update_consumption.
    + apply firms_reset.
    + apply length_fmap.
    + by rewrite idle_employed_fmap.
  - done.
  - intros (Hc & Hr & Htax). unfold chess_agents_unchanged.
    rewrite Hws, Hfs, Hg, idle_update_settled, firms_reset_settled by done.
    split_and!; try done. destruct (Chess.government e). simpl in Htax. by rewrite Htax.
Qed.

Context {G : Type} `{!NumpyRandom G}.

(** C10 (amended).  From a state in which no worker is employed (and, in
    [ai_economy.py] and [eco.py], whose attribute [num_employed] says so),
    a step keeps every wage, every employment flag and the cumulative
    profit, resets the derived fields (consumption of each worker, revenue
    of each firm, tax revenue, aggregate consumption) to zero, and appends
    to the history an employment count of 0, a consumption of 0, a tax
    revenue of 0, firm revenues of 0 and the unchanged profit.  The step
    after that one leaves the whole agent state unchanged and appends the
    same values. *)
Theorem C10_absorbing_after_reset (e : Economy) (c : Chess.Economy) (g : G) :
  employed_indices (workers e) = [] → consistent e →
  employed_indices (Chess.workers c) = [] →
  (∃ e' e'', AiEconomy.step e = Some e' ∧ AiEconomy.step e' = Some e'' ∧
     idle_reset e e' ∧ idle_reset e' e'' ∧ agents_unchanged e' e'') ∧
  (∃ e' g' e'' g'', Eco.step e g = Some (e', g') ∧ Eco.step e' g' = Some (e'', g'') ∧
     idle_reset e e' ∧ idle_reset e' e'' ∧ agents_unchanged e' e'') ∧
  (∃ c' g' c'' g'', Chess.step c g = Some (c', g') ∧ Chess.step c' g' = Some (c'', g'') ∧
     chess_idle_reset c c' ∧ chess_idle_reset c' c'' ∧ chess_agents_unchanged c' c'').
Proof.
  intros Hidle Hcons Hidlec. split_and!.
  - destruct (ai_idle_step e Hidle Hcons)
      as (e' & Hstep & Hws & Hf & Hfs & Hg & Hn & Ht & Hd).
    destruct (idle_reset_intro e e') as (Hreset & Hidle' & Hcons' & _); try done.
    destruct (ai_idle_step e' Hidle' Hcons')
      as (e'' & Hstep' & Hws' & Hf' & Hfs' & Hg' & Hn' & Ht' & Hd').
    destruct (idle_reset_intro e' e'') as (Hreset' & _ & _ & Hsame); try done.
    exists e', e''. split_and!; try done.
    apply Hsame. by destruct Hreset as (_ & _ & Hsettled & _).
  - destruct (eco_idle_step e g Hidle Hcons)
      as (e' & g' & Hstep & Hws & Hf & Hfs & Hg & Hn & Ht & Hd).
    destruct (idle_reset_intro e e') as (Hreset & Hidle' & Hcons' & _); try done.
    destruct (eco_idle_step e' g' Hidle' Hcons')
      as (e'' & g'' & Hstep' & Hws' & Hf' & Hfs' & Hg' & Hn' & Ht' & Hd').
    destruct (idle_reset_intro e' e'') as (Hreset' & _ & _ & Hsame); try done.
    exists e', g', e'', g''. split_and!; try done.
    apply Hsame. by destruct Hreset as (_ & _ & Hsettled & _).
  - destruct (chess_idle_step c g Hidlec)
      as (c' & g' & Hstep & Hws & Hf & Hfs & Hg & Ht & Hh).
    destruct (chess_idle_reset_intro c c') as (Hreset & Hidle' & _); try done.
    destruct (chess_idle_step c' g' Hidle')
      as (c'' & g'' & Hstep' & Hws' & Hf' & Hfs' & Hg' & Ht' & Hh').
    destruct (chess_idle_reset_intro c' c'') as (Hreset' & _ & Hsame); try done.
    exists c', g', c'', g''. split_and!; try done.
    apply Hsame. by destruct Hreset as (_ & _ & Hsettled & _).
Qed.

End Absorbing.

Lemma C10_absorbing_after_reset_witness :
  employed_indices (workers just_automated) = [] ∧
  consistent just_automated ∧
  employed_indices (Chess.workers chess_just_automated) = [] ∧
  (∃ e' e'', AiEconomy.step just_automated = Some e' ∧
     AiEconomy.step e' = Some e'' ∧ agents_unchanged e' e'') ∧
  (∃ c' g' c'' g'', Chess.step chess_just_automated [] = Some (c', g') ∧
     Chess.step c' g' = Some (c'', g'') ∧ chess_agents_unchanged c' c'').
Proof.
  assert (H1 : employed_indices (workers just_automated) = []) by reflexivity.
  assert (H2 : consistent just_automated) by reflexivity.
  assert (H3 : employed_indices (Chess.workers chess_just_automated) = []) by reflexivity.
  destruct (C10_absorbing_after_reset (G := list Qc)
              just_automated chess_just_automated [] H1 H2 H3)
    as ((e' & e'' & Hs & Hs' & _ & _ & Hsame) & _
        & (c' & g' & c'' & g'' & Hc & Hc' & _ & _ & Hcsame)).
  split; [exact H1|]. split; [exact H2|]. split; [exact H3|].
  split.
  - exists e', e''. exact (conj Hs (conj Hs' Hsame)).
  - exists c', g', c'', g''. exact (conj Hc (conj Hc' Hcsame)).
Defined.

(** ** The first step after everybody is automated changes the agents *)

Section StaleFields.

(** A step does not touch the consumption fields it computed at its start:
    the workers it flips keep the consumption of an employed worker. *)
Lemma eco_step_consumption `{!NumpyRandom G} e (g : G) e' g' :
  Eco.step e g = Some (e', g') →
  consumption <$> workers e' = consumption <$> (Worker_update <$> workers e).
Proof.
  intros Hstep. destruct (eco_step_inv _ _ _ _ Hstep) as (_ & Hauto & _).
  rewrite eco_automate_flip_where in Hauto. injection Hauto as <-.
  apply consumption_flip_where.
Qed.

(** C10 (counterexample).  [eco.py] is started on a generator whose wage
    draws are all the mean wage and whose first rate draw is 1: the first
    step automates the 1000 workers.  The state it leaves has no employed
    worker and a consistent [num_employed], but the next step does not
    leave its agents unchanged: the consumption of the first worker goes
    from 80 to 0. *)
Lemma C10_first_idle_step_changes_agents :
  ∃ e1 g1,
    Eco.step (Eco.Economy_init all_automated_tape).1
             (Eco.Economy_init all_automated_tape).2 = Some (e1, g1) ∧
    employed_indices (workers e1) = [] ∧
    consistent e1 ∧
    ¬ absorbing_unchanged (G := list Qc) e1.
Proof.
  assert (Hjobs :
    Py.int (Py.max 0 (random_normal Eco.ALPHA_MEAN Eco.ALPHA_STD
                        (Eco.Economy_init all_automated_tape).2).1
            * Py.float_of_int (num_employed (Eco.Economy_init all_automated_tape).1))
    = 1000%Z) by (vm_compute; reflexivity).
  assert (Hlen :
    length (employed_indices
              (Worker_update <$> workers (Eco.Economy_init all_automated_tape).1))
    = 1000%nat) by (vm_compute; reflexivity).
  assert (Hhead :
    ((λ w, this (consumption w))
       <$> (Worker_update <$> workers (Eco.Economy_init all_automated_tape).1)) !! 0%nat
    = Some 80%Q) by (vm_compute; reflexivity).
  remember (Eco.Economy_init all_automated_tape).1 as e0 eqn:He0.
  remember (Eco.Economy_init all_automated_tape).2 as g0 eqn:Hg0.
  clear He0 Hg0.
  destruct (eco_step_total e0 g0) as [[e1 g1] Hstep]. exists e1, g1.
  split; [done|].
  pose proof (eco_step_consumption _ _ _ _ Hstep) as Hcons1.
  destruct (eco_step_inv _ _ _ _ Hstep) as (_ & Hauto & Hn & _).
  rewrite Hjobs, eco_automate_flip_where in Hauto.
  rewrite slice_to_all in Hauto by (rewrite Hlen; lia).
  assert (Hws : workers e1
                = flip_where (selected (employed_indices (Worker_update <$> workers e0)))
                    (Worker_update <$> workers e0)) by congruence.
  assert (Hidle : employed_indices (workers e1) = []).
  { rewrite Hws, employed_indices_flip_where. apply filter_none.
    intros j Hj Hsel. apply Hsel. by apply bool_decide_pack. }
  split; [done|]. split; [exact Hn|].
  intros Hclaim. destruct (Hclaim Hidle g1) as (e2 & g2 & Hstep2 & (Hsame & _) & _).
  pose proof (eco_step_consumption _ _ _ _ Hstep2) as Hcons2.
  rewrite Hsame, Hcons1 in Hcons2.
  assert (Hzero : Forall (λ c, c = 0) (consumption <$> (Worker_update <$> workers e0))).
  { rewrite Hcons2. by apply consumption_update_unemployed. }
  rewrite list_lookup_fmap in Hhead.
  destruct ((Worker_update <$> workers e0) !! 0%nat) as [w|] eqn:Hw; [|done].
  injection Hhead as Hhead.
  assert (Hc : consumption w = 0).
  { apply (proj1 (Forall_lookup _ _) Hzero 0%nat).
    by rewrite list_lookup_fmap, Hw. }
  rewrite Hc in Hhead. vm_compute in Hhead. discriminate.
Qed.

End StaleFields.

(** ** Runs are determined by the draws *)

Section Determinism.

Context {G1 G2 : Type} `{!NumpyRandom G1, !NumpyRandom G2}.
Context (R : G1 → G2 → Prop) (HR : same_draws R).

Lemma eco_step_agree e g1 g2 : R g1 g2 → agree R (Eco.step e g1) (Eco.step e g2).
Proof.
  intros Hg. unfold Eco.step, Eco.AIFirm_update.
  destruct (HR g1 g2 Hg) as (Hnormal & _ & _).
  destruct (Hnormal Eco.ALPHA_MEAN Eco.ALPHA_STD) as [Hdraw Hnext].
  destruct (random_normal Eco.ALPHA_MEAN Eco.ALPHA_STD g1) as [d1 g1'].
  destruct (random_normal Eco.ALPHA_MEAN Eco.ALPHA_STD g2) as [d2 g2'].
  simpl in Hdraw, Hnext. subst d2.
  destruct (demand_ratio _ _) as [ratio|]; simpl; [|done].
  destruct (Eco.automate _ _) as [ws2|]; simpl; done.
Qed.

Lemma chess_step_agree e g1 g2 : R g1 g2 → agree R (Chess.step e g1) (Chess.step e g2).
Proof.
  intros Hg. unfold Chess.step, Chess.AIFirm_update, Chess.automate.
  destruct (HR g1 g2 Hg) as (Hnormal & _ & _).
  destruct (Hnormal Chess.ALPHA_MEAN Chess.ALPHA_STD) as [Hdraw Hnext].
  destruct (random_normal Chess.ALPHA_MEAN Chess.ALPHA_STD g1) as [d1 g1'].
  destruct (random_normal Chess.ALPHA_MEAN Chess.ALPHA_STD g2) as [d2 g2'].
  simpl in Hdraw, Hnext. subst d2.
  destruct (demand_ratio _ _) as [ratio|]; simpl; [|done].
  destruct (HR g1' g2' Hnext) as (_ & _ & Hshuffle).
  match goal with
  | |- context [random_shuffle ?xs g1'] =>
      destruct (Hshuffle xs) as [Hs Hnext'];
      destruct (random_shuffle xs g1') as [s1 g1''];
      destruct (random_shuffle xs g2') as [s2 g2'']
  end.
  simpl in Hs, Hnext'. subst s2.
  destruct (automate_indices _ _) as [ws2|]; simpl; done.
Qed.

Lemma eco_steps_agree n e g1 g2 :
  R g1 g2 → agree R (Eco.steps n e g1) (Eco.steps n e g2).
Proof.
  revert e g1 g2. induction n as [|n IH]; intros e g1 g2 Hg; simpl; [done|].
  pose proof (eco_step_agree e g1 g2 Hg) as Hstep.
  destruct (Eco.step e g1) as [[e1 g1']|], (Eco.step e g2) as [[e2 g2']|];
    simpl in *; try done.
  destruct Hstep as [-> Hg']. by apply IH.
Qed.

Lemma chess_steps_agree n e g1 g2 :
  R g1 g2 → agree R (Chess.steps n e g1) (Chess.steps n e g2).
Proof.
  revert e g1 g2. induction n as [|n IH]; intros e g1 g2 Hg; simpl; [done|].
  pose proof (chess_step_agree e g1 g2 Hg) as Hstep.
  destruct (Chess.step e g1) as [[e1 g1']|], (Chess.step e g2) as [[e2 g2']|];
    simpl in *; try done.
  destruct Hstep as [-> Hg']. by apply IH.
Qed.

Lemma eco_init_agree g1 g2 :
  R g1 g2 →
  (Eco.Economy_init g1).1 = (Eco.Economy_init g2).1 ∧
  R (Eco.Economy_init g1).2 (Eco.Economy_init g2).2.
Proof.
  intros Hg. unfold Eco.Economy_init.
  destruct (HR g1 g2 Hg) as (_ & Hnormal & _).
  match goal with
  | |- context [random_normal_n ?loc ?scale ?n g1] =>
      destruct (Hnormal loc scale n) as [Hw Hnext];
      destruct (random_normal_n loc scale n g1) as [w1 g1'];
      destruct (random_normal_n loc scale n g2) as [w2 g2']
  end.
  simpl in *. by subst w2.
Qed.

Lemma chess_init_agree g1 g2 :
  R g1 g2 →
  (Chess.Economy_init g1).1 = (Chess.Economy_init g2).1 ∧
  R (Chess.Economy_init g1).2 (Chess.Economy_init g2).2.
Proof.
  intros Hg. unfold Chess.Economy_init.
  destruct (HR g1 g2 Hg) as (_ & Hnormal & _).
  match goal with
  | |- context [random_normal_n ?loc ?scale ?n g1] =>
      destruct (Hnormal loc scale n) as [Hw Hnext];
      destruct (random_normal_n loc scale n g1) as [w1 g1'];
      destruct (random_normal_n loc scale n g2) as [w2 g2']
  end.
  simpl in *. by subst w2.
Qed.

End Determinism.

Section RunsComplete.

Context {G : Type} `{!NumpyRandom G}.

Lemma eco_steps_total n e (g : G) : is_Some (Eco.steps n e g).
Proof.
  revert e g. induction n as [|n IH]; intros e g; simpl; [eauto|].
  destruct (eco_step_total e g) as [[e' g'] ->]. simpl. apply IH.
Qed.

Lemma chess_steps_total n e (g : G) : is_Some (Chess.steps n e g).
Proof.
  revert e g. induction n as [|n IH]; intros e g; simpl; [eauto|].
  destruct (chess_step_total e g) as [[e' g'] ->]. simpl. apply IH.
Qed.

End RunsComplete.



(** * Further properties of the scripts *)

(** ** The number of jobs the automation firm returns *)

Section JobsToAutomate.

(** Truncation does not depend on the fraction being in lowest terms. *)
Lemma int_Q2Qc q : Py.int (Q2Qc q) = (Qnum q ÷ Zpos (Qden q))%Z.
Proof.
  unfold Py.int. simpl this.
  pose proof (Qred_correct q) as Hred. unfold Qeq in Hred.
  set (r := Qred q) in *.
  rewrite <- (Z.quot_mul_cancel_r (Qnum r) (Zpos (Qden r)) (Zpos (Qden q))) by lia.
  rewrite <- (Z.quot_mul_cancel_r (Qnum q) (Zpos (Qden q)) (Zpos (Qden r))) by lia.
  rewrite Hred. f_equal. lia.
Qed.

(** [int(0.05 * n)] is the twentieth part of [n], truncated toward zero. *)
Lemma ai_jobs_quot n : Py.int (AiEconomy.ALPHA * Py.float_of_int n) = (n ÷ 20)%Z.
Proof.
  unfold Qcmult. rewrite int_Q2Qc, this_float_of_int.
  change (this AiEconomy.ALPHA) with (1 # 20)%Q. simpl. by destruct n.
Qed.



Lemma max_0_nonpos x : x ≤ 0 → Py.max 0 x = 0.
Proof.
  intros Hx. unfold Py.max. rewrite decide_False; [done|]. by apply Qcle_not_lt.
Qed.

(** A draw that is not positive is clamped to the rate 0, which automates
    no job whatever the number of employed workers. *)
Lemma jobs_zero_nonpos_draw draw n :
  draw ≤ 0 → Py.int (Py.max 0 draw * Py.float_of_int n) = 0%Z.
Proof. intros Hd. rewrite max_0_nonpos by done. by rewrite Qcmult_0_l. Qed.

Lemma slice_to_0 {A} (xs : list A) : Py.slice_to xs 0 = [].
Proof. unfold Py.slice_to. by rewrite decide_False by lia. Qed.

Lemma flip_where_nobody ws : flip_where (selected []) ws = ws.
Proof.
  apply list_eq. intros j. rewrite lookup_flip_where.
  unfold selected. rewrite bool_decide_eq_false_2 by apply not_elem_of_nil.
  by destruct (ws !! j).
Qed.

Context {G : Type} `{!NumpyRandom G}.

(** X6.  [eco.py] and [python/chess.py]: when the rate drawn is not positive,
    the step flips nobody and books no profit: the employment flags and the
    cumulative profit after the step are those before it. *)
Theorem nonpositive_draw_automates_nothing (g : G) :
  (random_normal Eco.ALPHA_MEAN Eco.ALPHA_STD g).1 ≤ 0 →
  (∀ e, ∃ e' g', Eco.step e g = Some (e', g') ∧
      employed <$> workers e' = employed <$> workers e ∧
      ai_firm e' = ai_firm e) ∧
  (∀ e, ∃ e' g', Chess.step e g = Some (e', g') ∧
      employed <$> Chess.workers e' = employed <$> Chess.workers e ∧
      Chess.ai_firm e' = Chess.ai_firm e).
Proof.
  intros Hdraw. split.
  - intros e. destruct (eco_step_total e g) as [[e' g'] Hstep]. exists e', g'.
    split; [done|].
    destruct (eco_step_inv _ _ _ _ Hstep) as (_ & Hws & _ & (ratio & _ & _ & Hgain) & _).
    rewrite jobs_zero_nonpos_draw in Hws, Hgain by done.
    rewrite eco_automate_flip_where, slice_to_0, flip_where_nobody in Hws.
    injection Hws as <-. split.
    + rewrite <- list_fmap_compose. by apply list_fmap_ext.
    + rewrite <- (gain_unchanged (ai_firm e) ratio). destruct (ai_firm e').
      simpl in *. by rewrite Hgain.
  - intros e. destruct (chess_step_total e g) as [[e' g'] Hstep]. exists e', g'.
    split; [done|].
    destruct (chess_step_inv _ _ _ _ Hstep) as (Hws & (ratio & _ & _ & Hgain) & _).
    change Chess.ALPHA_MEAN with Eco.ALPHA_MEAN in Hws, Hgain.
    change Chess.ALPHA_STD with Eco.ALPHA_STD in Hws, Hgain.
    rewrite jobs_zero_nonpos_draw in Hws, Hgain by done.
    rewrite chess_automate_flip_where, slice_to_0, flip_where_nobody in Hws.
    injection Hws as <- _. split.
    + rewrite <- list_fmap_compose. by apply list_fmap_ext.
    + rewrite <- (gain_unchanged (Chess.ai_firm e) ratio). destruct (Chess.ai_firm e').
      simpl in *. by rewrite Hgain.
Qed.

End JobsToAutomate.

Lemma nonpositive_draw_automates_nothing_witness :
  (random_normal Eco.ALPHA_MEAN Eco.ALPHA_STD [Py.float_of_int (-10)]).1 ≤ 0 ∧
  ∃ e' g', Eco.step AiEconomy.Economy_init [Py.float_of_int (-10)] = Some (e', g') ∧
    employed <$> workers e' = employed <$> workers AiEconomy.Economy_init ∧
    ai_firm e' = ai_firm AiEconomy.Economy_init.
Proof.
  assert (H : (random_normal Eco.ALPHA_MEAN Eco.ALPHA_STD [Py.float_of_int (-10)]).1 ≤ 0)
    by (vm_compute; discriminate).
  split; [exact H|].
  exact (proj1 (nonpositive_draw_automates_nothing [Py.float_of_int (-10)] H)
           AiEconomy.Economy_init).
Defined.

(** ** Sums and bounds *)

Section SumBounds.

(** Linear goals over [Qc], through [Q]. *)
Local Ltac qc_lra :=
  unfold Qcle, Qclt, Qcminus, Qcplus, Qcopp, Qcmult in *;
  cbn [this Q2Qc] in *; rewrite ?Qred_correct in *; lra.

Lemma sum_nonneg xs : Forall (λ x, 0 ≤ x) xs → 0 ≤ Py.sum xs.
Proof.
  induction 1 as [|x xs Hx _ IH]; [done|].
  rewrite sum_cons. by apply Qcplus_nonneg_nonneg.
Qed.

Lemma sum_fmap_le {A} (f h : A → Qc) (l : list A) :
  Forall (λ a, f a ≤ h a) l → Py.sum (f <$> l) ≤ Py.sum (h <$> l).
Proof.
  induction 1 as [|a l Ha _ IH]; [done|].
  rewrite !fmap_cons, !sum_cons. by apply Qcplus_le_compat.
Qed.

Lemma sum_at_least (c : Qc) xs :
  Forall (λ x, c ≤ x) xs → Py.float_of_int (Z.of_nat (length xs)) * c ≤ Py.sum xs.
Proof.
  induction 1 as [|x xs Hx _ IH].
  - change (Py.float_of_int (Z.of_nat (length (@nil Qc)))) with 0.
    rewrite sum_nil, Qcmult_0_l. done.
  - rewrite sum_cons. simpl length. rewrite Nat2Z.inj_succ, <- Z.add_1_l.
    rewrite float_of_int_add.
    replace ((Py.float_of_int 1 + Py.float_of_int (Z.of_nat (length xs))) * c)
      with (c + Py.float_of_int (Z.of_nat (length xs)) * c)
      by (change (Py.float_of_int 1) with 1; ring).
    by apply Qcplus_le_compat.
Qed.

Lemma np_clip_min_ge a w : a ≤ np_clip_min a w.
Proof.
  unfold np_clip_min. destruct (decide (w < a)); [done|]. by apply Qcnot_lt_le.
Qed.

Lemma consumption_update_fmap (ws : list Worker) :
  consumption <$> (Worker_update <$> ws)
  = (λ w, if employed w then wage w * BETA else 0) <$> ws.
Proof. rewrite <- list_fmap_compose. by apply list_fmap_ext. Qed.

Lemma BETA_nonneg : 0 ≤ BETA.
Proof. by vm_compute. Qed.

(** With wages that are not negative, the consumption of the employed is
    between 0 and the consumption of the whole population at work. *)
Lemma pre_stimulus_total_bounds (ws : list Worker) :
  Forall (λ w, 0 ≤ wage w) ws →
  0 ≤ pre_stimulus_total ws ∧
  pre_stimulus_total ws ≤ Py.sum ((λ x, x * BETA) <$> (wage <$> ws)).
Proof.
  intros Hw. unfold pre_stimulus_total. rewrite consumption_update_fmap.
  rewrite <- list_fmap_compose. split.
  - apply sum_nonneg, Forall_fmap. eapply Forall_impl; [exact Hw|].
    intros w Hwage. simpl. destruct (employed w); [|done].
    apply Qcmult_nonneg_nonneg; [done | apply BETA_nonneg].
  - apply sum_fmap_le. eapply Forall_impl; [exact Hw|].
    intros w Hwage. simpl. destruct (employed w); [done|].
    apply Qcmult_nonneg_nonneg; [done | apply BETA_nonneg].
Qed.

Lemma ratio_bounds tc ic :
  0 ≤ tc → tc ≤ ic → 0 < ic → 0 ≤ tc / ic ∧ tc / ic ≤ 1.
Proof.
  intros H0 Hle Hic. pose proof (Qcinv_pos ic Hic) as Hinv.
  unfold Qcdiv. split.
  - apply Qcmult_nonneg_nonneg; [done | by apply Qclt_le_weak].
  - rewrite <- (Qcmult_inv_r ic) by (intros ->; by apply Qclt_not_eq in Hic).
    apply Qcmult_le_mono_nonneg_r; [by apply Qclt_le_weak | done].
Qed.

(** For a ratio between 0 and 1 the clamp of the profit factor is not
    used, and the factor is between one half and one. *)
Lemma profit_factor_bounds r :
  0 ≤ r → r ≤ 1 →
  Py.max 0 (1 - EPSILON * (1 - r)) = 1 - EPSILON * (1 - r) ∧
  Q2Qc 0.5 ≤ 1 - EPSILON * (1 - r) ∧ 1 - EPSILON * (1 - r) ≤ 1.
Proof.
  intros H0 H1.
  assert (Hlo : Q2Qc 0.5 ≤ 1 - EPSILON * (1 - r)) by (unfold EPSILON; qc_lra).
  assert (Hhi : 1 - EPSILON * (1 - r) ≤ 1) by (unfold EPSILON; qc_lra).
  split_and!; [|done..].
  apply max_0_l_id. eapply Qcle_trans; [|exact Hlo]. by vm_compute.
Qed.

Lemma adjusted_profit_bounds jobs r :
  (0 ≤ jobs)%Z → 0 ≤ r → r ≤ 1 →
  adjusted_profit jobs r
  = Py.float_of_int (raw_profit jobs) * (1 - EPSILON * (1 - r)) ∧
  Q2Qc 0.5 * Py.float_of_int (raw_profit jobs) ≤ adjusted_profit jobs r ∧
  adjusted_profit jobs r ≤ Py.float_of_int (raw_profit jobs).
Proof.
  intros Hjobs H0 H1. destruct (profit_factor_bounds r H0 H1) as (Hmax & Hlo & Hhi).
  assert (Hraw : 0 ≤ Py.float_of_int (raw_profit jobs)).
  { apply float_of_int_nonneg. unfold raw_profit, AI_PROFIT_PER_JOB. lia. }
  unfold adjusted_profit. rewrite Hmax. split_and!; [done| |].
  - rewrite (Qcmult_comm (Q2Qc 0.5)). by apply Qcmult_le_mono_nonneg_l.
  - rewrite <- (Qcmult_1_r (Py.float_of_int (raw_profit jobs))) at 2.
    by apply Qcmult_le_mono_nonneg_l.
Qed.

End SumBounds.

(** ** Invariants of the runs of [eco.py] *)

Section EcoRuns.

Context {G : Type} `{!NumpyRandom G}.

Lemma all_employed_count (ws : list Worker) :
  Forall (λ w, employed w = true) ws → employed_count ws = length ws.
Proof.
  intros Hall. unfold employed_count, employed_indices.
  rewrite length_employed_indices_from. f_equal. apply filter_all.
  intros w Hw. apply Is_true_true. by apply (proj1 (Forall_forall _ _) Hall).
Qed.

Lemma non_increasing_snoc xs y x :
  non_increasing xs → last xs = Some y → (x ≤ y)%Z → non_increasing (xs ++ [x]).
Proof.
  intros Hxs Hlast Hle i a b Ha Hb.
  rewrite last_lookup in Hlast.
  destruct (decide (S i < length xs)%nat) as [Hlt|Hge].
  - rewrite lookup_app_l in Ha, Hb by lia. by apply (Hxs i).
  - assert (Hb' : (S i < length (xs ++ [x]))%nat) by (by apply lookup_lt_Some in Hb).
    rewrite length_app in Hb'. simpl in Hb'.
    assert (Hi : S i = length xs) by lia.
    rewrite lookup_app_l in Ha by lia.
    rewrite lookup_app_r in Hb by lia.
    replace (S i - length xs)%nat with 0%nat in Hb by lia. simpl in Hb.
    replace (pred (length xs)) with i in Hlast by lia.
    congruence.
Qed.

(** What a step of [eco.py] keeps and what it appends. *)
Lemma eco_step_frame e (g : G) e' g' :
  Eco.step e g = Some (e', g') →
  wage <$> workers e' = wage <$> workers e ∧
  initial_consumption e' = initial_consumption e ∧
  consistent e' ∧
  (employed_count (workers e') ≤ employed_count (workers e))%nat ∧
  Employment (data e') = Employment (data e) ++ [num_employed e'] ∧
  ∀ n, series_lengths (data e) n → series_lengths (data e') (S n).
Proof.
  intros Hstep.
  destruct (eco_step_inv _ _ _ _ Hstep) as (_ & Hws & Hn & _ & _ & _ & _ & Hic & Hdata).
  rewrite eco_automate_flip_where in Hws. injection Hws as Hws.
  split_and!; try done.
  - by rewrite <- Hws, wage_flip_where, wage_update.
  - rewrite <- Hws, <- (employed_count_update (workers e)).
    apply employed_count_flip_where_le.
  - by rewrite Hdata.
  - intros n (H1 & H2 & H3 & H4 & H5). rewrite Hdata. unfold series_lengths, record.
    simpl. rewrite !length_app. simpl. lia.
Qed.

(** [eco.py]: in every state of a run, [num_employed] is the number of
    employed workers, the population has [INITIAL_JOBS] workers, every wage
    is at least 10, and [initial_consumption] is still the consumption of
    the whole population at work, which is at least 8000: the division of
    [AIFirm.update] is always by a positive baseline. *)
Lemma eco_reachable_inv e :
  eco_reachable e →
  consistent e ∧
  length (workers e) = Eco.INITIAL_JOBS ∧
  Forall (λ x, Py.float_of_int 10 ≤ x) (wage <$> workers e) ∧
  baseline_of_population (initial_consumption e) (workers e) ∧
  Py.float_of_int 8000 ≤ initial_consumption e.
Proof.
  induction 1 as [g|e g e' g' _ IH Hstep].
  - unfold Eco.Economy_init.
    pose proof (random_normal_n_length (Py.float_of_int Eco.INITIAL_WAGE_MEAN)
                  (Py.float_of_int Eco.INITIAL_WAGE_STD) Eco.INITIAL_JOBS g) as Hlen.
    destruct (random_normal_n _ _ _ g) as [wages g1]. simpl in Hlen. simpl.
    set (ws := Worker_init <$> (np_clip_min (Py.float_of_int 10) <$> wages)).
    assert (Hwage : wage <$> ws = np_clip_min (Py.float_of_int 10) <$> wages).
    { unfold ws. rewrite <- list_fmap_compose. by apply list_fmap_id. }
    assert (Hlenws : length ws = Eco.INITIAL_JOBS)
      by (unfold ws; by rewrite !length_fmap).
    assert (Hclip : Forall (λ x, Py.float_of_int 10 ≤ x) (wage <$> ws)).
    { rewrite Hwage. apply Forall_fmap, Forall_true. intros x. apply np_clip_min_ge. }
    assert (Hbase : Py.sum (consumption <$> ws)
                    = Py.sum ((λ x, x * BETA) <$> (wage <$> ws))).
    { f_equal. unfold ws. rewrite <- !list_fmap_compose. by apply list_fmap_ext. }
    split_and!; try done.
    + unfold consistent. simpl. rewrite count_employed_spec, all_employed_count.
      * by rewrite Hlenws.
      * unfold ws. apply Forall_fmap, Forall_true. done.
    + rewrite Hbase.
      eapply Qcle_trans;
        [|apply (sum_at_least (Py.float_of_int 8)); apply Forall_fmap;
          eapply Forall_impl; [exact Hclip|]].
      * rewrite !length_fmap, Hlenws. by vm_compute.
      * intros x Hx. simpl.
        eapply Qcle_trans; [|apply Qcmult_le_mono_nonneg_r; [apply BETA_nonneg | exact Hx]].
        by vm_compute.
  - destruct IH as (Hcons & Hlen & Hwage & Hbase & Hpos).
    destruct (eco_step_frame _ _ _ _ Hstep) as (Hw & Hic & Hcons' & _).
    unfold baseline_of_population in *. rewrite Hw, Hic.
    split_and!; try done.
    rewrite <- Hlen, <- (length_fmap wage (workers e')), Hw. apply length_fmap.
Qed.

(** X7.  [eco.py]: the invariants of a run, with what they give to the code:
    the attribute [num_employed] is the number of employed workers and lies
    between 0 and [INITIAL_JOBS]; the population and its wages (all at
    least 10) never change; the baseline is the consumption of the whole
    population at work and is at least 8000, so that the conditional
    expression of [AIFirm.update] always takes the division. *)
Theorem eco_reachable_invariants e :
  eco_reachable e →
  consistent e ∧
  (0 ≤ num_employed e ≤ Z.of_nat Eco.INITIAL_JOBS)%Z ∧
  length (workers e) = Eco.INITIAL_JOBS ∧
  Forall (λ x, Py.float_of_int 10 ≤ x) (wage <$> workers e) ∧
  baseline_of_population (initial_consumption e) (workers e) ∧
  Py.float_of_int 8000 ≤ initial_consumption e ∧
  ∀ tc, demand_ratio tc (initial_consumption e) = Some (tc / initial_consumption e).
Proof.
  intros Hreach.
  destruct (eco_reachable_inv e Hreach) as (Hcons & Hlen & Hwage & Hbase & Hpos).
  split_and!; try done.
  - unfold consistent in Hcons. rewrite Hcons. apply count_employed_nonneg.
  - unfold consistent in Hcons. rewrite Hcons, count_employed_spec, <- Hlen.
    apply inj_le, employed_count_le_length.
  - intros tc. apply demand_ratio_pos.
    eapply Qclt_le_trans; [|exact Hpos]. by vm_compute.
Qed.

(** [eco.py]: the series recorded under ["Employment"] starts at
    [INITIAL_JOBS], ends with the current [num_employed], and never
    increases from one entry to the next; the five series have the same
    number of entries. *)
Lemma eco_employment_series e :
  eco_reachable e →
  head (Employment (data e)) = Some (Z.of_nat Eco.INITIAL_JOBS) ∧
  last (Employment (data e)) = Some (num_employed e) ∧
  non_increasing (Employment (data e)) ∧
  ∃ n, series_lengths (data e) (S n).
Proof.
  induction 1 as [g|e g e' g' Hreach IH Hstep].
  - unfold Eco.Economy_init. destruct (random_normal_n _ _ _ g) as [wages g1]. simpl.
    split_and!; try done.
    by exists 0%nat.
  - destruct IH as (Hhead & Hlast & Hmono & n & Hlen).
    destruct (eco_reachable_inv e Hreach) as (Hcons & _).
    destruct (eco_step_frame _ _ _ _ Hstep) as (_ & _ & Hcons' & Hle & Happ & Hlens).
    rewrite Happ. split_and!.
    + destruct (Employment (data e)); [done | done].
    + apply last_snoc.
    + apply (non_increasing_snoc _ (num_employed e)); [done..|].
      unfold consistent in Hcons, Hcons'.
      rewrite Hcons, Hcons', !count_employed_spec. lia.
    + exists (S n). by apply Hlens.
Qed.


End EcoRuns.

Lemma eco_reachable_invariants_witness :
  eco_reachable (Eco.Economy_init ([] : list Qc)).1 ∧
  consistent (Eco.Economy_init ([] : list Qc)).1 ∧
  Py.float_of_int 8000 ≤ initial_consumption (Eco.Economy_init ([] : list Qc)).1.
Proof.
  assert (H : eco_reachable (Eco.Economy_init ([] : list Qc)).1)
    by apply eco_reachable_init.
  split; [exact H|].
  destruct (eco_reachable_invariants _ H) as (Hcons & _ & _ & _ & _ & Hpos & _).
  exact (conj Hcons Hpos).
Defined.


(** ** The whole run of [eco.py] *)

Section EcoWholeRun.

Context {G : Type} `{!NumpyRandom G}.

Lemma eco_steps_reachable n e (g : G) k :
  eco_reachable e → series_lengths (data e) k →
  ∃ e' g', Eco.steps n e g = Some (e', g') ∧ eco_reachable e' ∧
           series_lengths (data e') (n + k).
Proof.
  revert e g k. induction n as [|n IH]; intros e g k Hreach Hlen; simpl.
  - by exists e, g.
  - destruct (eco_step_total e g) as [[e1 g1] Hstep]. rewrite Hstep. simpl.
    destruct (eco_step_frame _ _ _ _ Hstep) as (_ & _ & _ & _ & _ & Hlens).
    destruct (IH e1 g1 (S k)) as (e' & g' & Hsteps & Hreach' & Hlen').
    + by eapply eco_reachable_step.
    + by apply Hlens.
    + exists e', g'. split_and!; [done..|].
      by replace (S (n + k)) with (n + S k)%nat by lia.
Qed.

(** X8.  [run_simulation] of [eco.py], whatever the generator does: the run
    completes without raising, each of the five recorded series has
    [NUM_STEPS + 1] entries, and the employment series starts at
    [INITIAL_JOBS] and never increases. *)
Theorem eco_run_simulation_data (g : G) :
  ∃ d g', Eco.run_simulation g = Some (d, g') ∧
    series_lengths d (S NUM_STEPS) ∧
    head (Employment d) = Some (Z.of_nat Eco.INITIAL_JOBS) ∧
    non_increasing (Employment d).
Proof.
  unfold Eco.run_simulation.
  pose proof (eco_reachable_init g) as Hreach.
  assert (Hlen : series_lengths (data (Eco.Economy_init g).1) 1).
  { unfold Eco.Economy_init. destruct (random_normal_n _ _ _ g) as [wages g1].
    by repeat split. }
  destruct (Eco.Economy_init g) as [e0 g0]. simpl in Hreach, Hlen.
  destruct (eco_steps_reachable NUM_STEPS e0 g0 1 Hreach Hlen)
    as (e' & g' & -> & Hreach' & Hlen').
  simpl. exists (data e'), g'. split; [done|].
  destruct (eco_employment_series e' Hreach') as (Hhead & _ & Hmono & _).
  split_and!; done.
Qed.

End EcoWholeRun.

(** ** Reshaping a list into a grid *)

Section Reshape.

Lemma length_rows_of rows cols xs : length (rows_of rows cols xs) = rows.
Proof.
  revert xs. induction rows as [|rows IH]; intros xs; simpl; [done|].
  by rewrite IH.
Qed.

Lemma rows_of_width rows cols xs :
  length xs = (rows * cols)%nat →
  Forall (λ row, length row = cols) (rows_of rows cols xs).
Proof.
  revert xs. induction rows as [|rows IH]; intros xs Hlen; simpl; [constructor|].
  constructor.
  - rewrite length_take. simpl in Hlen. lia.
  - apply IH. rewrite length_drop. simpl in Hlen. lia.
Qed.

(** The entry at row [r] and column [c] of the grid is the entry
    [r * cols + c] of the list. *)
Lemma rows_of_lookup rows cols xs r c :
  (r < rows)%nat → (c < cols)%nat →
  rows_of rows cols xs !! r ≫= (λ row, row !! c) = xs !! (r * cols + c)%nat.
Proof.
  revert xs r. induction rows as [|rows IH]; intros xs r Hr Hc; [lia|].
  simpl. destruct r as [|r]; simpl.
  - by rewrite lookup_take_lt by lia.
  - rewrite IH by lia. rewrite lookup_drop. f_equal. lia.
Qed.

Lemma np_reshape_Some rows cols xs :
  length xs = (rows * cols)%nat → np_reshape rows cols xs = Some (rows_of rows cols xs).
Proof. intros Hlen. unfold np_reshape. by rewrite decide_True. Qed.

(** A list of another size cannot be reshaped. *)
Lemma np_reshape_None rows cols xs :
  length xs ≠ (rows * cols)%nat → np_reshape rows cols xs = None.
Proof. intros Hlen. unfold np_reshape. by rewrite decide_False. Qed.

Lemma float_of_int_le a b : (a ≤ b)%Z → Py.float_of_int a ≤ Py.float_of_int b.
Proof.
  intros Hab. unfold Qcle. rewrite !this_float_of_int. by rewrite <- Zle_Qle.
Qed.

Lemma float_of_int_pos a : (0 < a)%Z → 0 < Py.float_of_int a.
Proof.
  intros Ha. unfold Qclt. rewrite this_float_of_int. simpl.
  unfold Qlt. simpl. lia.
Qed.

Lemma isum_bools_bounds (bs : list bool) :
  (0 ≤ Py.isum ((λ b : bool, if b then 1 else 0) <$> bs) ≤ Z.of_nat (length bs))%Z.
Proof.
  induction bs as [|b bs IH]; [done|].
  rewrite fmap_cons, isum_cons. simpl length. destruct b; lia.
Qed.

(** The mean of a non-empty list of flags is a number between 0 and 1. *)
Lemma np_mean_bool_bounds bs :
  bs ≠ [] → ∃ m, np_mean_bool bs = Some m ∧ 0 ≤ m ∧ m ≤ 1.
Proof.
  intros Hne. unfold np_mean_bool, Py.truediv.
  assert (Hlen : (0 < Z.of_nat (length bs))%Z) by (destruct bs; [done | simpl; lia]).
  pose proof (float_of_int_pos _ Hlen) as Hpos.
  rewrite decide_False by (intros Heq; rewrite Heq in Hpos; by apply Qclt_not_eq in Hpos).
  eexists. split; [done|].
  destruct (isum_bools_bounds bs) as [H0 H1].
  apply ratio_bounds; [|by apply float_of_int_le|done].
  by apply float_of_int_nonneg.
Qed.

End Reshape.

(** ** The history of [python/chess.py] and the frames of the animation *)

Section ChessRuns.

Context {G : Type} `{!NumpyRandom G}.

Lemma flags_never_return_step (ws ws' : list Worker) :
  no_rehiring ws ws' → flags_never_return (employed <$> ws) (employed <$> ws').
Proof.
  intros [Hlen Hno] j Hj. rewrite list_lookup_fmap in Hj |- *.
  destruct (ws !! j) as [w|] eqn:Hw; [|done]. simpl in Hj. injection Hj as Hj.
  destruct (lookup_lt_is_Some_2 ws' j) as [w' Hw'].
  { rewrite Hlen. by apply lookup_lt_Some in Hw. }
  rewrite Hw'. simpl. f_equal. by apply (Hno j w w').
Qed.

(** What a step of [python/chess.py] keeps and what it appends. *)
Lemma chess_step_frame e (g : G) e' g' :
  Chess.step e g = Some (e', g') →
  wage <$> Chess.workers e' = wage <$> Chess.workers e ∧
  Chess.initial_consumption e' = Chess.initial_consumption e ∧
  no_rehiring (Chess.workers e) (Chess.workers e') ∧
  ∃ s, Chess.history e' = Chess.history e ++ [s] ∧ snapshot_of s (Chess.workers e').
Proof.
  intros Hstep.
  destruct (chess_step_inv _ _ _ _ Hstep) as (Hws & _ & _ & _ & _ & Hic & Hhist).
  rewrite chess_automate_flip_where in Hws. injection Hws as Hws _.
  rewrite chess_Worker_update_fmap in Hws.
  split_and!; try done.
  - by rewrite <- Hws, wage_flip_where, wage_update.
  - rewrite <- Hws. apply no_rehiring_update, no_rehiring_flip_where.
  - eexists. split; [exact Hhist|]. by split.
Qed.

(** [python/chess.py]: in every state of a run the population has
    [NUM_WORKERS] workers with wages of at least 10 and the baseline is at
    least 8000; every snapshot of the history has one flag and one wage per
    worker, the last one is the picture of the current workers, and from
    one snapshot to the next no flag goes from [False] to [True]. *)
Lemma chess_reachable_inv e :
  chess_reachable e →
  length (Chess.workers e) = Chess.NUM_WORKERS ∧
  Forall (λ x, Py.float_of_int 10 ≤ x) (wage <$> Chess.workers e) ∧
  Py.float_of_int 8000 ≤ Chess.initial_consumption e ∧
  Forall (λ s, length (Chess.h_employment s) = Chess.NUM_WORKERS ∧
               length (Chess.h_wages s) = Chess.NUM_WORKERS) (Chess.history e) ∧
  (∀ s, last (Chess.history e) = Some s → snapshot_of s (Chess.workers e)) ∧
  (∀ i s s', Chess.history e !! i = Some s → Chess.history e !! S i = Some s' →
     flags_never_return (Chess.h_employment s) (Chess.h_employment s')).
Proof.
  induction 1 as [g|e g e' g' _ IH Hstep].
  - unfold Chess.Economy_init.
    pose proof (random_normal_n_length (Py.float_of_int Chess.INITIAL_WAGE_MEAN)
                  (Py.float_of_int Chess.INITIAL_WAGE_STD) Chess.NUM_WORKERS g) as Hlen.
    destruct (random_normal_n _ _ _ g) as [wages g1]. simpl in Hlen. simpl.
    set (ws := Chess.Worker_init <$> (np_clip_min (Py.float_of_int 10) <$> wages)).
    assert (Hwage : wage <$> ws = np_clip_min (Py.float_of_int 10) <$> wages).
    { unfold ws. rewrite <- list_fmap_compose. by apply list_fmap_id. }
    assert (Hlenws : length ws = Chess.NUM_WORKERS)
      by (unfold ws; by rewrite !length_fmap).
    assert (Hclip : Forall (λ x, Py.float_of_int 10 ≤ x) (wage <$> ws)).
    { rewrite Hwage. apply Forall_fmap, Forall_true. intros x. apply np_clip_min_ge. }
    assert (Hbase : Py.sum (consumption <$> ws)
                    = Py.sum ((λ x, BETA * x) <$> (wage <$> ws))).
    { f_equal. unfold ws. rewrite <- !list_fmap_compose. by apply list_fmap_ext. }
    split_and!; try done.
    rewrite Hbase.
    eapply Qcle_trans;
      [|apply (sum_at_least (Py.float_of_int 8)); apply Forall_fmap;
        eapply Forall_impl; [exact Hclip|]].
    + rewrite !length_fmap, Hlenws. by vm_compute.
    + intros x Hx. simpl.
      eapply Qcle_trans; [|apply Qcmult_le_mono_nonneg_l; [apply BETA_nonneg | exact Hx]].
      by vm_compute.
  - destruct IH as (Hlen & Hwage & Hpos & Hsnaps & Hlast & Hmono).
    destruct (chess_step_frame _ _ _ _ Hstep) as (Hw & Hic & Hno & s & Hhist & Hs).
    assert (Hlen' : length (Chess.workers e') = Chess.NUM_WORKERS)
      by (by rewrite (proj1 Hno)).
    rewrite Hw, Hic, Hhist. split_and!; try done.
    + apply Forall_app. split; [done|]. constructor; [|constructor].
      destruct Hs as [-> ->]. by rewrite !length_fmap.
    + intros s0 Hs0. rewrite last_snoc in Hs0. by injection Hs0 as <-.
    + intros i s1 s2 H1 H2.
      destruct (decide (S i < length (Chess.history e))%nat) as [Hlt|Hge].
      * rewrite lookup_app_l in H1, H2 by lia. by apply (Hmono i).
      * assert (Hi : (S i < length (Chess.history e ++ [s]))%nat)
          by (by apply lookup_lt_Some in H2).
        rewrite length_app in Hi. simpl in Hi.
        rewrite lookup_app_l in H1 by lia.
        rewrite lookup_app_r in H2 by lia.
        replace (S i - length (Chess.history e))%nat with 0%nat in H2 by lia.
        simpl in H2. injection H2 as <-.
        assert (Hl : last (Chess.history e) = Some s1).
        { rewrite last_lookup. by replace (pred (length (Chess.history e))) with i by lia. }
        destruct (Hlast s1 Hl) as [-> _]. destruct Hs as [-> _].
        by apply flags_never_return_step.
Qed.

(** X10.  [python/chess.py]: the invariants of a run, with what they give to
    the code: the population of [NUM_WORKERS] workers and its wages (all at
    least 10) never change; the baseline is at least 8000, so that the
    conditional expression of [AIFirm.update] always takes the division;
    every snapshot has one flag and one wage per worker, and from one
    snapshot to the next no flag goes from [False] to [True]. *)
Theorem chess_reachable_invariants e :
  chess_reachable e →
  length (Chess.workers e) = Chess.NUM_WORKERS ∧
  Forall (λ x, Py.float_of_int 10 ≤ x) (wage <$> Chess.workers e) ∧
  Py.float_of_int 8000 ≤ Chess.initial_consumption e ∧
  (∀ tc, demand_ratio tc (Chess.initial_consumption e)
         = Some (tc / Chess.initial_consumption e)) ∧
  Forall (λ s, length (Chess.h_employment s) = Chess.NUM_WORKERS ∧
               length (Chess.h_wages s) = Chess.NUM_WORKERS) (Chess.history e) ∧
  (∀ s, last (Chess.history e) = Some s → snapshot_of s (Chess.workers e)) ∧
  (∀ i s s', Chess.history e !! i = Some s → Chess.history e !! S i = Some s' →
     flags_never_return (Chess.h_employment s) (Chess.h_employment s')).
Proof.
  intros Hreach.
  destruct (chess_reachable_inv e Hreach) as (Hlen & Hwage & Hpos & Hsnaps & Hlast & Hmono).
  split_and!; try done.
  intros tc. apply demand_ratio_pos.
  eapply Qclt_le_trans; [|exact Hpos]. by vm_compute.
Qed.

Lemma chess_steps_reachable n e (g : G) :
  chess_reachable e →
  ∃ e' g', Chess.steps n e g = Some (e', g') ∧ chess_reachable e' ∧
           length (Chess.history e') = (n + length (Chess.history e))%nat.
Proof.
  revert e g. induction n as [|n IH]; intros e g Hreach; simpl.
  - by exists e, g.
  - destruct (chess_step_total e g) as [[e1 g1] Hstep]. rewrite Hstep. simpl.
    destruct (chess_step_frame _ _ _ _ Hstep) as (_ & _ & _ & s & Hhist & _).
    destruct (IH e1 g1) as (e' & g' & Hsteps & Hreach' & Hlen').
    + by eapply chess_reachable_step.
    + exists e', g'. split_and!; [done..|].
      rewrite Hlen', Hhist, length_app. simpl. lia.
Qed.

(** X11.  [animate_economy] of [python/chess.py], whatever the generator does:
    the run completes and leaves [NUM_STEPS] snapshots, and for every frame
    below [NUM_STEPS] the subscript, the reshape and the mean of
    [update(frame)] succeed: the grid has [GRID_ROWS] rows of [GRID_COLS]
    entries, the entry at row [r] and column [c] is the wage recorded for
    worker [r * GRID_COLS + c], and [employed_pct] is between 0 and 100. *)
Theorem chess_frames_can_be_drawn (g : G) (frame : nat) :
  (frame < NUM_STEPS)%nat →
  ∃ h g' s grid pct,
    Chess.animate_economy g = Some (h, g') ∧
    length h = NUM_STEPS ∧
    h !! frame = Some s ∧
    frame_values h frame = Some (grid, pct) ∧
    length grid = Chess.GRID_ROWS ∧
    Forall (λ row, length row = Chess.GRID_COLS) grid ∧
    (∀ r c, (r < Chess.GRID_ROWS)%nat → (c < Chess.GRID_COLS)%nat →
       grid !! r ≫= (λ row, row !! c)
       = Chess.h_wages s !! (r * Chess.GRID_COLS + c)%nat) ∧
    0 ≤ pct ∧ pct ≤ Py.float_of_int 100.
Proof.
  intros Hframe. unfold Chess.animate_economy.
  pose proof (chess_reachable_init g) as Hreach.
  assert (Hnil : Chess.history (Chess.Economy_init g).1 = []).
  { unfold Chess.Economy_init. by destruct (random_normal_n _ _ _ g). }
  destruct (Chess.Economy_init g) as [e0 g0]. simpl in Hreach, Hnil.
  destruct (chess_steps_reachable NUM_STEPS e0 g0 Hreach)
    as (e' & g' & -> & Hreach' & Hlen).
  rewrite Hnil in Hlen. change (length (@nil Chess.Snapshot)) with 0%nat in Hlen.
  rewrite Nat.add_0_r in Hlen.
  destruct (chess_reachable_inv e' Hreach') as (_ & _ & _ & Hsnaps & _).
  destruct (lookup_lt_is_Some_2 (Chess.history e') frame) as [s Hs]; [lia|].
  destruct (proj1 (Forall_lookup _ _) Hsnaps frame s Hs) as [Hflags Hwages].
  destruct (np_mean_bool_bounds (Chess.h_employment s)) as (m & Hmean & Hm0 & Hm1).
  { intros Hnil'. by rewrite Hnil' in Hflags. }
  simpl. exists (Chess.history e'), g', s,
    (rows_of Chess.GRID_ROWS Chess.GRID_COLS (Chess.h_wages s)),
    (m * Py.float_of_int 100).
  split_and!; try done.
  - unfold frame_values, Py.getitem. rewrite Hs. simpl.
    rewrite np_reshape_Some by done. simpl. by rewrite Hmean.
  - by apply rows_of_width.
  - intros r c Hr Hc. by apply rows_of_lookup.
  - apply Qcmult_nonneg_nonneg; [done | by vm_compute].
  - rewrite <- (Qcmult_1_l (Py.float_of_int 100)) at 2.
    apply Qcmult_le_mono_nonneg_r; [by vm_compute | done].
Qed.

End ChessRuns.

Lemma chess_reachable_invariants_witness :
  chess_reachable (Chess.Economy_init ([] : list Qc)).1 ∧
  length (Chess.workers (Chess.Economy_init ([] : list Qc)).1) = Chess.NUM_WORKERS.
Proof.
  assert (H : chess_reachable (Chess.Economy_init ([] : list Qc)).1)
    by apply chess_reachable_init.
  split; [exact H|].
  exact (proj1 (chess_reachable_invariants _ H)).
Defined.

Lemma chess_frames_can_be_drawn_witness :
  (7 < NUM_STEPS)%nat ∧
  ∃ h g', Chess.animate_economy ([] : list Qc) = Some (h, g') ∧ length h = NUM_STEPS.
Proof.
  assert (H : (7 < NUM_STEPS)%nat) by (vm_compute; lia).
  split; [exact H|].
  destruct (chess_frames_can_be_drawn ([] : list Qc) 7 H)
    as (h & g' & _ & _ & _ & Hrun & Hlen & _).
  exists h, g'. exact (conj Hrun Hlen).
Defined.

(** ** The run of [ai_economy.py] *)

Section AiRun.

Lemma ai_stalled_init : ai_stalled 0 AiEconomy.Economy_init.
Proof. split_and!; [done | done | by vm_compute]. Qed.

(** One step of [ai_economy.py] in a run: the first step automates the
    workers 0..49; every later step looks at the positions 0..46 only and
    automates nobody. *)
Lemma ai_step_stalled k e :
  ai_stalled k e → ∃ e', AiEconomy.step e = Some e' ∧ ai_stalled (S k) e'.
Proof.
  intros (Hser & Hn & Hidx).
  destruct (ai_step_total e) as [e' Hstep]. exists e'. split; [done|].
  destruct (ai_step_inv _ _ Hstep) as (Hws & Hn' & _ & _ & _ & _ & _ & Hdata).
  rewrite ai_jobs_quot, ai_automate_flip_where in Hws.
  assert (Hidx' : employed_indices (workers e') = seq 50 950).
  { rewrite Hws, employed_indices_flip_where, employed_indices_update, Hidx, Hn.
    destruct k; by vm_compute. }
  assert (Hn950 : num_employed e' = 950%Z).
  { rewrite Hn', count_employed_spec. unfold employed_count.
    by rewrite Hidx', length_seq. }
  split_and!; [|done|done].
  rewrite Hdata. unfold record. cbn [Employment]. rewrite Hser, Hn950.
  by rewrite replicate_S_end.
Qed.

Lemma ai_steps_stalled n k e :
  ai_stalled k e → ∃ e', AiEconomy.steps n e = Some e' ∧ ai_stalled (n + k) e'.
Proof.
  revert k e. induction n as [|n IH]; intros k e Hst; simpl.
  - by exists e.
  - destruct (ai_step_stalled k e Hst) as (e1 & -> & Hst1). simpl.
    destruct (IH (S k) e1 Hst1) as (e' & Hsteps & Hst').
    exists e'. split; [done|].
    by replace (S (n + k)) with (n + S k)%nat by lia.
Qed.

(** X4.  [ai_economy.py]: a run of any number of steps from [Economy()]
    completes, and the series it records under ["Employment"] is 1000
    followed by 950 for every step: after the first step the employment
    never moves again. *)
Theorem ai_employment_stalls_at_950 n :
  ∃ e, AiEconomy.steps n AiEconomy.Economy_init = Some e ∧
    Employment (data e) = 1000%Z :: replicate n 950%Z ∧
    num_employed e = (if n is O then 1000%Z else 950%Z) ∧
    count_employed (workers e) = num_employed e.
Proof.
  destruct (ai_steps_stalled n 0 AiEconomy.Economy_init ai_stalled_init)
    as (e & Hsteps & Hser & Hn & Hidx).
  rewrite Nat.add_0_r in Hser, Hn, Hidx.
  exists e. split_and!; try done.
  rewrite count_employed_spec, Hn. unfold employed_count. rewrite Hidx.
  destruct n; by rewrite length_seq.
Qed.

End AiRun.

(** ** The normalisation of the series before plotting *)

Section Normalisation.

Lemma max_cases a b : Py.max a b = a ∨ Py.max a b = b.
Proof. unfold Py.max. destruct (decide (a < b)); auto. Qed.

Lemma foldl_max_spec b xs :
  b ≤ foldl Py.max b xs ∧
  Forall (λ x, x ≤ foldl Py.max b xs) xs ∧
  (foldl Py.max b xs = b ∨ foldl Py.max b xs ∈ xs).
Proof.
  revert b. induction xs as [|x xs IH]; intros b; simpl.
  - split_and!; [apply Qcle_refl | constructor | by left].
  - destruct (IH (Py.max b x)) as (Hle & Hall & Hin). split_and!.
    + eapply Qcle_trans; [apply max_ge_l | exact Hle].
    + constructor; [|done]. eapply Qcle_trans; [apply max_ge_r | exact Hle].
    + destruct Hin as [Heq|Hin]; [|right; by right].
      rewrite Heq. destruct (max_cases b x) as [->| ->]; [by left | right; by left].
Qed.

(** [max(values)] is one of the values and none is greater. *)
Lemma py_max_list_spec values m :
  py_max_list values = Some m → m ∈ values ∧ Forall (λ v, v ≤ m) values.
Proof.
  destruct values as [|v values]; [done|]. simpl. intros [= <-].
  destruct (foldl_max_spec v values) as (Hle & Hall & Hin). split.
  - destruct Hin as [-> | Hin]; [by left | by right].
  - by constructor.
Qed.

Lemma py_max_list_is_Some values : values ≠ [] → is_Some (py_max_list values).
Proof. destruct values; [done | simpl; eauto]. Qed.

Lemma div_le_1 v m : v ≤ m → 0 < m → v / m ≤ 1.
Proof.
  intros Hle Hm. pose proof (Qcinv_pos m Hm) as Hinv. unfold Qcdiv.
  rewrite <- (Qcmult_inv_r m) by (intros ->; by apply Qclt_not_eq in Hm).
  apply Qcmult_le_mono_nonneg_r; [by apply Qclt_le_weak | done].
Qed.

Lemma div_self m : m ≠ 0 → m / m = 1.
Proof. intros Hm. unfold Qcdiv. by apply Qcmult_inv_r. Qed.

(** X12.  [eco.py]: the normalisation of a series never raises; it keeps the
    number of entries, and no normalised entry is above 1.  When the
    greatest value is positive it is mapped to 1; otherwise every entry
    becomes 0. *)
Theorem eco_normalize_total values :
  ∃ out, eco_normalize values = Some out ∧
    length out = length values ∧
    Forall (λ y, y ≤ 1) out ∧
    (∀ m, py_max_list values = Some m → 0 < m →
          out = (λ v, v / m) <$> values ∧ 1 ∈ out) ∧
    (∀ m, py_max_list values = Some m → m ≤ 0 → out = (λ _, 0) <$> values).
Proof.
  unfold eco_normalize. destruct (decide (values = [])) as [->|Hne].
  { exists []. split_and!; try done. }
  destruct (py_max_list_is_Some values Hne) as [m Hmax]. rewrite Hmax.
  destruct (py_max_list_spec values m Hmax) as [Hin Hall].
  destruct (decide (0 < m)) as [Hpos|Hnpos].
  - exists ((λ v, v / m) <$> values).
    assert (Hm0 : m ≠ 0) by (intros ->; by apply Qclt_not_eq in Hpos).
    split_and!.
    + apply mapM_Some_2, Forall2_fmap_r, Forall_Forall2_diag, Forall_true.
      intros v. simpl. rewrite decide_True by done.
      unfold Py.truediv. by rewrite decide_False.
    + apply length_fmap.
    + apply Forall_fmap. eapply Forall_impl; [exact Hall|].
      intros v Hv. simpl. by apply div_le_1.
    + intros m' [= <-] _. split; [done|].
      rewrite <- (div_self m Hm0). by apply (list_elem_of_fmap_2 (λ v, v / m)).
    + intros m' [= <-] Hle. by apply Qcle_not_lt in Hle.
  - exists ((λ _, 0) <$> values). split_and!.
    + apply mapM_Some_2, Forall2_fmap_r, Forall_Forall2_diag, Forall_true.
      intros v. simpl. by rewrite decide_False.
    + apply length_fmap.
    + apply Forall_fmap, Forall_true. intros v. simpl. by vm_compute.
    + intros m' [= <-] Hpos. done.
    + intros m' [= <-] _. done.
Qed.

(** X13.  [ai_economy.py]: the normalisation divides without a guard: it raises
    on a series whose greatest value is 0 (as the tax revenue before the
    first step), and otherwise divides every entry by the greatest value;
    no normalised entry is above 1 when that value is positive. *)
Theorem ai_normalize_raises_on_zero_max values m :
  py_max_list values = Some m →
  (m = 0 → ai_normalize values = None) ∧
  (m ≠ 0 → ai_normalize values = Some ((λ v, v / m) <$> values)) ∧
  (0 < m → Forall (λ y, y ≤ 1) ((λ v, v / m) <$> values)).
Proof.
  intros Hmax. destruct (py_max_list_spec values m Hmax) as [Hin Hall].
  unfold ai_normalize. rewrite Hmax. split_and!.
  - intros ->. apply mapM_None_2, Exists_exists. exists 0. split; [done|].
    simpl. unfold Py.truediv. by rewrite decide_True.
  - intros Hm. apply mapM_Some_2, Forall2_fmap_r, Forall_Forall2_diag, Forall_true.
    intros v. simpl. unfold Py.truediv. by rewrite decide_False.
  - intros Hpos. apply Forall_fmap. eapply Forall_impl; [exact Hall|].
    intros v Hv. simpl. by apply div_le_1.
Qed.

End Normalisation.

Lemma eco_normalize_total_witness :
  ∃ out, eco_normalize [1; 1 + 1] = Some out ∧
    (py_max_list [1; 1 + 1] = Some (1 + 1) ∧ 0 < 1 + 1 ∧ 1 ∈ out) ∧
    (py_max_list [0; - (1)] = Some 0 ∧ 0 ≤ 0 ∧
     ∃ out', eco_normalize [0; - (1)] = Some out' ∧ out' = [0; 0]).
Proof.
  destruct (eco_normalize_total [1; 1 + 1]) as (out & Hout & _ & _ & Hpos & _).
  destruct (eco_normalize_total [0; - (1)]) as (out' & Hout' & _ & _ & _ & Hzero).
  assert (H1 : py_max_list [1; 1 + 1] = Some (1 + 1)) by reflexivity.
  assert (H2 : 0 < 1 + 1) by (vm_compute; reflexivity).
  assert (H3 : py_max_list [0; - (1)] = Some 0) by reflexivity.
  assert (H4 : (0 : Qc) ≤ 0) by (vm_compute; discriminate).
  exists out. split; [exact Hout|]. split.
  - exact (conj H1 (conj H2 (proj2 (Hpos _ H1 H2)))).
  - split; [exact H3|]. split; [exact H4|].
    exists out'. split; [exact Hout' | exact (Hzero _ H3 H4)].
Defined.

Lemma ai_normalize_raises_on_zero_max_witness :
  py_max_list (Tax_Revenue (data AiEconomy.Economy_init)) = Some 0 ∧
  ai_normalize (Tax_Revenue (data AiEconomy.Economy_init)) = None.
Proof.
  assert (H : py_max_list (Tax_Revenue (data AiEconomy.Economy_init)) = Some 0)
    by reflexivity.
  split; [exact H|].
  exact (proj1 (ai_normalize_raises_on_zero_max _ 0 H) eq_refl).
Defined.

(** ** Which workers each script automates in a step *)

Section StepSelection.


Context {G : Type} `{!NumpyRandom G}.



End StepSelection.


(** ** The profit recorded along a run *)

Section ProfitSeries.

Lemma non_decreasing_snoc xs y x :
  non_decreasing xs → last xs = Some y → y ≤ x → non_decreasing (xs ++ [x]).
Proof.
  intros Hxs Hlast Hle i a b Ha Hb.
  rewrite last_lookup in Hlast.
  destruct (decide (S i < length xs)%nat) as [Hlt|Hge].
  - rewrite lookup_app_l in Ha, Hb by lia. by apply (Hxs i).
  - assert (Hb' : (S i < length (xs ++ [x]))%nat) by (by apply lookup_lt_Some in Hb).
    rewrite length_app in Hb'. simpl in Hb'.
    rewrite lookup_app_l in Ha by lia.
    rewrite lookup_app_r in Hb by lia.
    replace (S i - length xs)%nat with 0%nat in Hb by lia. simpl in Hb.
    replace (pred (length xs)) with i in Hlast by lia.
    congruence.
Qed.

(** In a series that starts at 0 and never decreases no entry is
    negative. *)
Lemma non_decreasing_nonneg xs :
  head xs = Some 0 → non_decreasing xs → Forall (λ x, 0 ≤ x) xs.
Proof.
  intros Hhead Hmono. apply Forall_lookup. intros i. induction i as [|i IH]; intros x Hx.
  - rewrite <- head_lookup, Hhead in Hx. injection Hx as <-. apply Qcle_refl.
  - destruct (lookup_lt_is_Some_2 xs i) as [a Ha].
    { apply lookup_lt_Some in Hx. lia. }
    eapply Qcle_trans; [by apply IH | by apply (Hmono i)].
Qed.

Context {G : Type} `{!NumpyRandom G}.

Lemma eco_profit_series e :
  eco_reachable e →
  head (AI_Profit (data e)) = Some 0 ∧
  last (AI_Profit (data e)) = Some (material_gain (ai_firm e)) ∧
  non_decreasing (AI_Profit (data e)).
Proof.
  induction 1 as [g|e g e' g' Hreach IH Hstep].
  - unfold Eco.Economy_init. destruct (random_normal_n _ _ _ g) as [wages g1]. simpl.
    split_and!; done.
  - destruct IH as (Hhead & Hlast & Hmono).
    destruct (eco_reachable_inv e Hreach) as (Hcons & _).
    destruct (eco_step_inv _ _ _ _ Hstep)
      as (_ & _ & _ & (ratio & _ & _ & Hgain) & _ & _ & _ & _ & Hdata).
    rewrite Hdata. unfold record. cbn [AI_Profit]. split_and!.
    + by destruct (AI_Profit (data e)).
    + apply last_snoc.
    + apply (non_decreasing_snoc _ (material_gain (ai_firm e))); [done..|].
      rewrite Hgain. apply gain_le_add, adjusted_profit_nonneg, jobs_nonneg.
      * apply max_ge_l.
      * unfold consistent in Hcons. rewrite Hcons. apply count_employed_nonneg.
Qed.

(** X14.  [run_simulation] of [eco.py], whatever the generator does: the series
    recorded under ["AI Profit"] starts at 0, never decreases from one
    entry to the next, and has no negative entry. *)
Theorem eco_recorded_profit_never_decreases (g : G) :
  ∃ d g', Eco.run_simulation g = Some (d, g') ∧
    head (AI_Profit d) = Some 0 ∧
    non_decreasing (AI_Profit d) ∧
    Forall (λ x, 0 ≤ x) (AI_Profit d).
Proof.
  unfold Eco.run_simulation.
  pose proof (eco_reachable_init g) as Hreach.
  assert (Hlen : series_lengths (data (Eco.Economy_init g).1) 1).
  { unfold Eco.Economy_init. destruct (random_normal_n _ _ _ g) as [wages g1].
    by repeat split. }
  destruct (Eco.Economy_init g) as [e0 g0]. simpl in Hreach, Hlen.
  destruct (eco_steps_reachable NUM_STEPS e0 g0 1 Hreach Hlen)
    as (e' & g' & -> & Hreach' & _).
  simpl. exists (data e'), g'. split; [done|].
  destruct (eco_profit_series e' Hreach') as (Hhead & _ & Hmono).
  split_and!; [done..|]. by apply non_decreasing_nonneg.
Qed.

End ProfitSeries.

(** ** The profit of [ai_economy.py] after the employment has stalled *)

Section AiProfit.

Local Ltac qc_compute := apply Qc_is_canon; vm_compute; reflexivity.

(** The consumption of the employed is [BETA] times their wages. *)
Lemma pre_stimulus_total_employed_wages (ws : list Worker) :
  pre_stimulus_total ws = employed_wages ws * BETA.
Proof.
  unfold pre_stimulus_total, employed_wages. rewrite consumption_update_fmap.
  induction ws as [|w ws IH].
  - rewrite filter_nil. simpl. rewrite sum_nil. ring.
  - rewrite fmap_cons, sum_cons, IH. destruct (employed w) eqn:Hw.
    + rewrite filter_cons_True by (by apply Is_true_true).
      rewrite fmap_cons, sum_cons. ring.
    + rewrite filter_cons_False by (by apply Is_true_false). ring.
Qed.

Lemma ai_step_wages e e' :
  AiEconomy.step e = Some e' →
  Forall (λ w, wage w = Py.float_of_int AiEconomy.INITIAL_WAGE) (workers e) →
  Forall (λ w, wage w = Py.float_of_int AiEconomy.INITIAL_WAGE) (workers e').
Proof.
  intros Hstep Hw. destruct (ai_step_inv _ _ Hstep) as (Hws & _).
  apply (Forall_wage_fmap (λ x, x = Py.float_of_int AiEconomy.INITIAL_WAGE)).
  rewrite Hws, wage_ai_automate, wage_update.
  by apply (Forall_wage_fmap (λ x, x = Py.float_of_int AiEconomy.INITIAL_WAGE)).
Qed.

Lemma ai_first_step_profit :
  ∃ e1, AiEconomy.step AiEconomy.Economy_init = Some e1 ∧ ai_stalled_profit 0 e1.
Proof.
  destruct (ai_step_stalled 0 _ ai_stalled_init) as (e1 & Hstep & _ & Hn & Hidx).
  exists e1. split; [done|].
  destruct (ai_step_inv _ _ Hstep) as (_ & _ & (ratio & Hratio & _ & Hgain) & _ & _ & _ & Hic & _).
  assert (Hw0 : Forall (λ w, wage w = Py.float_of_int AiEconomy.INITIAL_WAGE)
                  (workers AiEconomy.Economy_init)).
  { apply Forall_replicate. reflexivity. }
  fold (pre_stimulus_total (workers AiEconomy.Economy_init)) in Hratio.
  rewrite pre_stimulus_total_employed_wages,
    (uniform_employed_wages AiEconomy.INITIAL_WAGE) in Hratio by done.
  assert (Hc0 : count_employed (workers AiEconomy.Economy_init) = 1000%Z).
  { rewrite count_employed_spec. unfold employed_count.
    destruct ai_stalled_init as (_ & _ & ->). by rewrite length_seq. }
  rewrite Hc0, demand_ratio_pos in Hratio by (vm_compute; reflexivity).
  injection Hratio as <-.
  split_and!; [done | done | by apply (ai_step_wages _ _ Hstep) | | ].
  - rewrite Hic. qc_compute.
  - rewrite Hgain, ai_jobs_quot. qc_compute.
Qed.

Lemma ai_step_stalled_profit k e :
  ai_stalled_profit k e →
  ∃ e', AiEconomy.step e = Some e' ∧ ai_stalled_profit (S k) e' ∧
        flipped (workers e) (workers e') = [].
Proof.
  intros (Hidx & Hn & Hw & Hic & Hgain).
  destruct (ai_step_total e) as [e' Hstep]. exists e'. split; [done|].
  destruct (ai_step_inv _ _ Hstep) as (Hws & Hn' & (ratio & Hratio & _ & Hgain') & _ & _ & _ & Hic' & _).
  rewrite ai_jobs_quot, Hn in Hws, Hgain'.
  assert (Hflip : flipped (workers e) (workers e') = []).
  { rewrite Hws, <- flipped_update, ai_automate_flipped, employed_indices_update, Hidx.
    by vm_compute. }
  assert (Hidx' : employed_indices (workers e') = seq 50 950).
  { rewrite Hws, ai_automate_flip_where, employed_indices_flip_where,
      employed_indices_update, Hidx. by vm_compute. }
  fold (pre_stimulus_total (workers e)) in Hratio.
  rewrite pre_stimulus_total_employed_wages,
    (uniform_employed_wages AiEconomy.INITIAL_WAGE) in Hratio by done.
  assert (Hc : count_employed (workers e) = 950%Z).
  { rewrite count_employed_spec. unfold employed_count. by rewrite Hidx, length_seq. }
  rewrite Hc, Hic, demand_ratio_pos in Hratio by (vm_compute; reflexivity).
  injection Hratio as <-.
  split; [|done]. split_and!; [done | | by apply (ai_step_wages _ _ Hstep) | congruence | ].
  - rewrite Hn', count_employed_spec. unfold employed_count.
    by rewrite Hidx', length_seq.
  - rewrite Hgain', Hgain, Nat2Z.inj_succ, <- Z.add_1_r, float_of_int_add.
    replace (adjusted_profit (950 ÷ 20)
               (Py.float_of_int (950 * AiEconomy.INITIAL_WAGE) * BETA
                / Py.float_of_int 80000))
      with (Q2Qc 2291.25) by qc_compute.
    change (Py.float_of_int 1) with 1. ring.
Qed.

(** X15.  [ai_economy.py]: after the first step, every further step of a run
    automates nobody and still books a profit of 2291.25 (the raw profit of
    47 jobs, adjusted by the ratio 0.95): after [1 + n] steps the
    cumulative profit is [2500 + n * 2291.25] with 950 workers employed. *)
Theorem ai_profit_accrues_without_automation n :
  ∃ e e', AiEconomy.steps (S n) AiEconomy.Economy_init = Some e ∧
    material_gain (ai_firm e)
    = Py.float_of_int 2500 + Py.float_of_int (Z.of_nat n) * Q2Qc 2291.25 ∧
    num_employed e = 950%Z ∧
    AiEconomy.step e = Some e' ∧
    flipped (workers e) (workers e') = [] ∧
    material_gain (ai_firm e') = material_gain (ai_firm e) + Q2Qc 2291.25.
Proof.
  destruct ai_first_step_profit as (e1 & Hstep1 & Hst1).
  assert (Hsteps : ∀ m k e0, ai_stalled_profit k e0 →
            ∃ e, AiEconomy.steps m e0 = Some e ∧ ai_stalled_profit (m + k) e).
  { induction m as [|m IH]; intros k e0 Hst; simpl.
    - by exists e0.
    - destruct (ai_step_stalled_profit k e0 Hst) as (e2 & -> & Hst2 & _). simpl.
      destruct (IH (S k) e2 Hst2) as (e & Hsteps & Hst').
      exists e. split; [done|]. by replace (S (m + k)) with (m + S k)%nat by lia. }
  destruct (Hsteps n 0%nat e1 Hst1) as (e & Hrun & Hst).
  rewrite Nat.add_0_r in Hst.
  destruct (ai_step_stalled_profit n e Hst) as (e' & Hstep & Hst' & Hflip).
  assert (Hrun' : AiEconomy.steps (S n) AiEconomy.Economy_init = Some e).
  { change (AiEconomy.steps (S n) AiEconomy.Economy_init)
      with (AiEconomy.step AiEconomy.Economy_init ≫= AiEconomy.steps n).
    rewrite Hstep1. exact Hrun. }
  exists e, e'.
  destruct Hst as (_ & Hn & _ & _ & Hgain).
  destruct Hst' as (_ & _ & _ & _ & Hgain').
  split_and!; try done.
  rewrite Hgain', Hgain, Nat2Z.inj_succ, <- Z.add_1_r, float_of_int_add.
  change (Py.float_of_int 1) with 1. ring.
Qed.

End AiProfit.
